(** * setup-agda: option resolution, compatibility rules and the
      binary-distribution pipeline

    A shallow embedding of [src/opts.ts], [src/util/icu.ts],
    [src/setup-agda/bdist.ts] and
    [src/setup-agda/build-from-sdist/stack.ts] together with the
    properties the specification states about them and further
    properties read off the code.

    JavaScript strings are modelled as [string]; every character is read as
    one code unit in the range 0..255 (Latin-1), which is where the
    literals the program compares against live (one error message ends in
    an emoji, kept as its UTF-8 bytes).  The module constant [os] and the
    results of [node:os] are passed explicitly; the collaborators that are
    not among the sources are parameters. *)

From Stdlib Require Import String Ascii NArith List Bool.
From stdpp Require Import base option list strings gmap.

Open Scope string_scope.

(** ** Errors and results *)

(** A JavaScript [Error]: only its message matters to the program. *)
Record Error := MkError { message : string }.

Inductive Result (A : Type) : Type :=
  | Ok (a : A)
  | Throw (e : Error).
Arguments Ok {A} a.
Arguments Throw {A} e.

Global Instance result_ret : MRet Result := fun _ a => Ok a.
Global Instance result_bind : MBind Result := fun _ _ f r =>
  match r with
  | Ok a => f a
  | Throw e => Throw e
  end.

Definition is_ok {A} (r : Result A) : bool :=
  match r with Ok _ => true | Throw _ => false end.

(** ** String helpers of the JavaScript runtime *)

Module JS.

(** [WhiteSpace] and [LineTerminator] code units below 256: TAB, LF, VT,
    FF, CR, SPACE and NBSP.  Both [String.prototype.trim] and the regular
    expression class [\s] use this set. *)
Definition is_ws (c : ascii) : bool :=
  let n := N_of_ascii c in
  ((9 <=? n) && (n <=? 13) || (n =? 32) || (n =? 160))%N.

Fixpoint drop_ws (l : list ascii) : list ascii :=
  match l with
  | c :: l' => if is_ws c then drop_ws l' else l
  | [] => []
  end.

(** [s.trim()] on the code units. *)
Definition trim_list (l : list ascii) : list ascii :=
  rev (drop_ws (rev (drop_ws l))).

Definition trim (s : string) : string :=
  string_of_list_ascii (trim_list (list_ascii_of_string s)).

(** [s.split(/\s+/g)]: the pieces between maximal runs of white space; a
    run at either end leaves an empty piece there. *)
Fixpoint split_ws (l : list ascii) : list (list ascii) :=
  match l with
  | [] => [[]]
  | c :: l' =>
      if is_ws c then
        match l' with
        | c' :: _ => if is_ws c' then split_ws l' else [] :: split_ws l'
        | [] => [] :: split_ws l'
        end
      else
        match split_ws l' with
        | p :: ps => (c :: p) :: ps
        | [] => [[c]]
        end
  end.

(** [s.split(sep)] for a one-character separator. *)
Fixpoint split_on (sep : ascii) (l : list ascii) : list (list ascii) :=
  match l with
  | [] => [[]]
  | c :: l' =>
      if Ascii.eqb c sep then [] :: split_on sep l'
      else
        match split_on sep l' with
        | p :: ps => (c :: p) :: ps
        | [] => [[c]]
        end
  end.

(** [pieces.join('')]. *)
Definition join_empty (ps : list (list ascii)) : list ascii := concat ps.

(** [xs.join(sep)]. *)
Fixpoint join (sep : string) (xs : list string) : string :=
  match xs with
  | [] => ""
  | [x] => x
  | x :: xs' => x ++ sep ++ join sep xs'
  end.

(** A list that does not begin with white space. *)
Definition head_ok (l : list ascii) : Prop :=
  match l with
  | c :: _ => is_ws c = false
  | [] => True
  end.

(** A list with no white space at either end: what [trim] leaves. *)
Definition trimmed (l : list ascii) : Prop :=
  head_ok l /\ head_ok (rev l).

(** The characters [\s] does not match. *)
Definition no_ws (c : ascii) : bool := negb (is_ws c).

End JS.

(** ** simver: the simple version comparator *)

Module simver.

(** Modelled from the spec: [util/simver.ts] is not among the sources.
    The definitions of this module follow the VersionComparator of the
    specification: dot-separated numeric components, compared in order,
    missing trailing components counting as zero, and every comparison
    failing closed on a malformed version. *)

(** Modelled from the spec: one decimal digit of a numeric component. *)
Definition digit (c : ascii) : option N :=
  let n := N_of_ascii c in
  if ((48 <=? n) && (n <=? 57))%N then Some (n - 48)%N else None.

(** Modelled from the spec: the value of a run of decimal digits. *)
Fixpoint digits (acc : N) (l : list ascii) : option N :=
  match l with
  | [] => Some acc
  | c :: l' =>
      match digit c with
      | Some d => digits (10 * acc + d)%N l'
      | None => None
      end
  end.

(** Modelled from the spec: one component is a non-empty run of decimal
    digits; anything else is malformed. *)
Definition component (l : list ascii) : option N :=
  match l with
  | [] => None
  | _ => digits 0%N l
  end.

(** Modelled from the spec: every component has to be numeric. *)
Fixpoint components (ps : list (list ascii)) : option (list N) :=
  match ps with
  | [] => Some []
  | p :: ps' =>
      match component p, components ps' with
      | Some n, Some ns => Some (n :: ns)
      | _, _ => None
      end
  end.

(** Modelled from the spec: a version is a string of dot-separated
    numeric components; a component that is not a number makes the
    version malformed. *)
Definition parse (v : string) : option (list N) :=
  components (JS.split_on "." (list_ascii_of_string v)).

(** Modelled from the spec: missing trailing components are padded with
    zero, for the comparison only. *)
Definition pad (n : nat) (l : list N) : list N :=
  l ++ replicate (n - length l) 0%N.

(** Modelled from the spec: component-wise ordering of two padded
    versions. *)
Fixpoint lex (a b : list N) : comparison :=
  match a, b with
  | x :: a', y :: b' =>
      match (x ?= y)%N with
      | Eq => lex a' b'
      | c => c
      end
  | _, _ => Eq
  end.

(** Modelled from the spec: the three-way ordering of [util/simver.ts];
    missing trailing components count as zero, a malformed version has
    no ordering. *)
Definition compare (v1 v2 : string) : option comparison :=
  match parse v1, parse v2 with
  | Some a, Some b =>
      let n := max (length a) (length b) in
      Some (lex (pad n a) (pad n b))
  | _, _ => None
  end.

(** Modelled from the spec: [simver.gte]; like [lt] and [eq] it fails
    closed (answers [false]) when a version is malformed. *)
Definition gte (v1 v2 : string) : bool :=
  match compare v1 v2 with
  | Some Lt | None => false
  | Some _ => true
  end.

(** Modelled from the spec: [simver.lt]. *)
Definition lt (v1 v2 : string) : bool :=
  match compare v1 v2 with
  | Some Lt => true
  | _ => false
  end.

(** Modelled from the spec: [simver.eq]. *)
Definition eq (v1 v2 : string) : bool :=
  match compare v1 v2 with
  | Some Eq => true
  | _ => false
  end.

End simver.


(** ** opts.ts: options, compatibility rules and option resolution *)

Module opts.

(** [SetupHaskellOption | 'agda-version' | 'bdist-name' | 'ghc-version-range']. *)
Inductive SetupAgdaOption :=
  | agda_version_opt | bdist_name_opt | ghc_version_range_opt
  | cabal_version_opt | ghc_version_opt | stack_version_opt.

Inductive SetupAgdaFlag :=
  | bdist_compress_exe_flag | bdist_upload_flag
  | disable_cluster_counting_flag | force_build_flag | force_no_build_flag
  | ghc_version_match_exact_flag
  | disable_matcher_flag | enable_stack_flag | stack_no_global_flag
  | stack_setup_ghc_flag.

Global Instance SetupAgdaOption_eq_dec : EqDecision SetupAgdaOption.
Proof. solve_decision. Defined.

Global Instance SetupAgdaFlag_eq_dec : EqDecision SetupAgdaFlag.
Proof. solve_decision. Defined.

Definition option_name (k : SetupAgdaOption) : string :=
  match k with
  | agda_version_opt => "agda-version"
  | bdist_name_opt => "bdist-name"
  | ghc_version_range_opt => "ghc-version-range"
  | cabal_version_opt => "cabal-version"
  | ghc_version_opt => "ghc-version"
  | stack_version_opt => "stack-version"
  end.

Definition flag_name (k : SetupAgdaFlag) : string :=
  match k with
  | bdist_compress_exe_flag => "bdist-compress-exe"
  | bdist_upload_flag => "bdist-upload"
  | disable_cluster_counting_flag => "disable-cluster-counting"
  | force_build_flag => "force-build"
  | force_no_build_flag => "force-no-build"
  | ghc_version_match_exact_flag => "ghc-version-match-exact"
  | disable_matcher_flag => "disable-matcher"
  | enable_stack_flag => "enable-stack"
  | stack_no_global_flag => "stack-no-global"
  | stack_setup_ghc_flag => "stack-setup-ghc"
  end.

Inductive PackageStatus := normal | deprecated.

Record PackageInfoCache := {
  packageInfo : gmap string PackageStatus;
  lastModified : string
}.

(** [BuildOptions]: the inputs of the action, the three directory and
    version lists, and the optional fields filled in later. *)
Record BuildOptions := {
  agda_version : string;
  bdist_compress_exe : bool;
  bdist_name : string;
  bdist_upload : bool;
  disable_cluster_counting : bool;
  force_build : bool;
  force_no_build : bool;
  ghc_version_match_exact : bool;
  ghc_version_range : string;
  cabal_version : string;
  disable_matcher : bool;
  enable_stack : bool;
  ghc_version : string;
  stack_no_global : bool;
  stack_setup_ghc : bool;
  stack_version : string;
  extra_include_dirs : list string;
  extra_lib_dirs : list string;
  ghc_supported_versions : list string;
  icu_version : option string;
  package_info_cache : option PackageInfoCache;
  upx_version : option string
}.

(** [options['bdist-name'] = v]. *)
Definition set_bdist_name (v : string) (o : BuildOptions) : BuildOptions :=
  {| agda_version := agda_version o;
     bdist_compress_exe := bdist_compress_exe o;
     bdist_name := v;
     bdist_upload := bdist_upload o;
     disable_cluster_counting := disable_cluster_counting o;
     force_build := force_build o;
     force_no_build := force_no_build o;
     ghc_version_match_exact := ghc_version_match_exact o;
     ghc_version_range := ghc_version_range o;
     cabal_version := cabal_version o;
     disable_matcher := disable_matcher o;
     enable_stack := enable_stack o;
     ghc_version := ghc_version o;
     stack_no_global := stack_no_global o;
     stack_setup_ghc := stack_setup_ghc o;
     stack_version := stack_version o;
     extra_include_dirs := extra_include_dirs o;
     extra_lib_dirs := extra_lib_dirs o;
     ghc_supported_versions := ghc_supported_versions o;
     icu_version := icu_version o;
     package_info_cache := package_info_cache o;
     upx_version := upx_version o |}.

(** [{...options, 'icu-version': v}]. *)
Definition set_icu_version (v : string) (o : BuildOptions) : BuildOptions :=
  {| agda_version := agda_version o;
     bdist_compress_exe := bdist_compress_exe o;
     bdist_name := bdist_name o;
     bdist_upload := bdist_upload o;
     disable_cluster_counting := disable_cluster_counting o;
     force_build := force_build o;
     force_no_build := force_no_build o;
     ghc_version_match_exact := ghc_version_match_exact o;
     ghc_version_range := ghc_version_range o;
     cabal_version := cabal_version o;
     disable_matcher := disable_matcher o;
     enable_stack := enable_stack o;
     ghc_version := ghc_version o;
     stack_no_global := stack_no_global o;
     stack_setup_ghc := stack_setup_ghc o;
     stack_version := stack_version o;
     extra_include_dirs := extra_include_dirs o;
     extra_lib_dirs := extra_lib_dirs o;
     ghc_supported_versions := ghc_supported_versions o;
     icu_version := Some v;
     package_info_cache := package_info_cache o;
     upx_version := upx_version o |}.

(** *** Matching the OS *)

Inductive OS := linux | macos | windows.

Global Instance OS_eq_dec : EqDecision OS.
Proof. solve_decision. Defined.

(** The module constant [os], computed from [process.platform]. *)
Definition detectOS (platform : string) : Result OS :=
  if String.eqb platform "linux" then Ok linux
  else if String.eqb platform "darwin" then Ok macos
  else if String.eqb platform "win32" then Ok windows
  else Throw (MkError ("Unsupported platform " ++ platform)).

(** *** Helper functions to check support of various build options *)

Definition compressExe (options : BuildOptions) : bool :=
  bdist_compress_exe options.

Definition supportsClusterCounting (options : BuildOptions) : bool :=
  let agda := simver.gte (agda_version options) "2.5.3" in
  let user := negb (disable_cluster_counting options) in
  let todo := negb (enable_stack options) in
  let depr := simver.gte (agda_version options) "2.6.2" in
  agda && user && todo && depr.

Definition supportsOptimiseHeavily (options : BuildOptions) : bool :=
  simver.gte (agda_version options) "2.6.2".

Definition supportsExecutableStatic (options : BuildOptions) : bool :=
  let osOK := false in
  let ghcVersionOK := simver.gte (ghc_version options) "8.4" in
  osOK && ghcVersionOK.

(** [os] is the module constant, passed explicitly. *)
Definition supportsSplitSections (os : OS) (options : BuildOptions) : bool :=
  let osOK := bool_decide (os = linux) || bool_decide (os = windows) in
  let ghcVersionOK := simver.gte (ghc_version options) "8.0" in
  let cabalVersionOK := simver.gte (cabal_version options) "2.2" in
  osOK && ghcVersionOK && cabalVersionOK.

(** [release] is the result of [os.release()]. *)
Definition supportsUPX (os : OS) (release : string) : bool :=
  negb (bool_decide (os = macos)) || simver.lt release "21".

(** *** Helper to get the BuildOptions *)

Definition bdistNameDefaultTemplate : string :=
  "agda-{{{agda-version}}}-{{{arch}}}-{{{platform}}}".

(** A raw input value, as the lookup capability hands it over: absent, a
    boolean, a string, or (for the list-valued fields of an options
    record passed back in) an array of strings. *)
Inductive Raw :=
  | RUndefined
  | RBool (b : bool)
  | RString (s : string)
  | RStrings (l : list string).

(** The three shapes of the [inputs] argument: left out, a record, or a
    function from names to values. *)
Inductive Inputs :=
  | InputsUndefined
  | InputsRecord (r : gmap string Raw)
  | InputsFunction (f : string -> Raw).

(** [typeof inputs === 'function' ? inputs(k) : inputs?.[k]]. *)
Definition maybeInput (inputs : Inputs) (k : string) : Raw :=
  match inputs with
  | InputsFunction f => f k
  | InputsRecord r => default RUndefined (r !! k)
  | InputsUndefined => RUndefined
  end.

(** SameValueZero, the equality of [Array.prototype.includes]; an array
    is only equal to itself, and no array occurs in the lists searched
    here. *)
Definition sameValueZero (x y : Raw) : bool :=
  match x, y with
  | RUndefined, RUndefined => true
  | RBool a, RBool b => Bool.eqb a b
  | RString a, RString b => String.eqb a b
  | _, _ => false
  end.

Definition includes (xs : list Raw) (y : Raw) : bool :=
  existsb (fun x => sameValueZero x y) xs.

(** The double quote, for the messages that contain one. *)
Definition dq : string := String (ascii_of_N 34) "".

Section getOptions.

(** The [inputs] section of [action.yml]: for each declared name an
    entry with an optional default. *)
Variable inputSpec : gmap string (option string).
(** [semver.validRange]: the normalised range, or [null]. *)
Variable semver_validRange : string -> option string.
(** [Mustache.parse]: [None] when the template parses, the error it
    throws otherwise. *)
Variable Mustache_parse : string -> option Error.
(** [os.EOL]. *)
Variable EOL : string.

Variable inputs : Inputs.

Definition getOption (k : SetupAgdaOption) : Result string :=
  match maybeInput inputs (option_name k) with
  | RUndefined =>
      Ok (match inputSpec !! option_name k with
          | Some (Some d) => d
          | _ => ""
          end)
  | RString s => Ok (JS.trim s)
  | RBool _ | RStrings _ =>
      Throw (MkError "maybeInput?.trim is not a function")
  end.

Definition getFlag (k : SetupAgdaFlag) : bool :=
  negb (includes [RBool false; RString ""; RString "false"; RUndefined]
                 (maybeInput inputs (flag_name k))).

(** [!semver.validRange(r)]. *)
Definition invalidRange (r : string) : bool :=
  match semver_validRange r with
  | None | Some "" => true
  | Some _ => false
  end.

(** [s.split(/\s+/g).join('').trim()]. *)
Definition normalizeName (s : string) : string :=
  JS.trim (string_of_list_ascii
             (JS.join_empty (JS.split_ws (list_ascii_of_string s)))).

Definition getOptions : Result BuildOptions :=
  agda ← getOption agda_version_opt;
  let compress := getFlag bdist_compress_exe_flag in
  name ← getOption bdist_name_opt;
  let upload := getFlag bdist_upload_flag in
  let nocluster := getFlag disable_cluster_counting_flag in
  let fbuild := getFlag force_build_flag in
  let fnobuild := getFlag force_no_build_flag in
  let exact := getFlag ghc_version_match_exact_flag in
  range ← getOption ghc_version_range_opt;
  cabal ← getOption cabal_version_opt;
  let nomatcher := getFlag disable_matcher_flag in
  let stack := getFlag enable_stack_flag in
  ghc ← getOption ghc_version_opt;
  let noglobal := getFlag stack_no_global_flag in
  let setupghc := getFlag stack_setup_ghc_flag in
  stackv ← getOption stack_version_opt;
  let options :=
    {| agda_version := agda;
       bdist_compress_exe := compress;
       bdist_name := name;
       bdist_upload := upload;
       disable_cluster_counting := nocluster;
       force_build := fbuild;
       force_no_build := fnobuild;
       ghc_version_match_exact := exact;
       ghc_version_range := range;
       cabal_version := cabal;
       disable_matcher := nomatcher;
       enable_stack := stack;
       ghc_version := ghc;
       stack_no_global := noglobal;
       stack_setup_ghc := setupghc;
       stack_version := stackv;
       extra_include_dirs := [];
       extra_lib_dirs := [];
       ghc_supported_versions := [];
       icu_version := None;
       package_info_cache := None;
       upx_version := None |} in
  if String.eqb (agda_version options) "nightly" then
    Throw (MkError ("Value " ++ dq ++ "nightly" ++ dq ++ " for input "
                    ++ dq ++ "agda-version" ++ dq ++ " is unupported"))
  else if negb (String.eqb (ghc_version options) "latest") then
    Throw (MkError ("Input " ++ dq ++ "ghc-version" ++ dq
                    ++ " is unsupported. Use " ++ dq
                    ++ "ghc-version-range" ++ dq))
  else if invalidRange (ghc_version_range options) then
    Throw (MkError ("Input " ++ dq ++ "ghc-version-range" ++ dq
                    ++ " is not a valid version range"))
  else if force_build options && force_no_build options then
    Throw (MkError "Build or no build? What do you want from me? 🤷🏻‍♀️")
  else if String.eqb (bdist_name options) "" then
    match Mustache_parse bdistNameDefaultTemplate with
    | Some e => Throw e
    | None => Ok options
    end
  else
    let options' := set_bdist_name (normalizeName (bdist_name options)) options in
    match Mustache_parse (bdist_name options') with
    | Some e =>
        Throw (MkError (JS.join EOL
          [ "Could not parse bdist-name, '" ++ bdist_name options' ++ "':";
            message e ]))
    | None => Ok options'
    end.

End getOptions.

(** An options record handed back as the [inputs] record: every field
    under its own name (the package-info cache, an object that no lookup
    reads, is left out). *)
Definition asInputs (o : BuildOptions) : Inputs :=
  InputsRecord (list_to_map
    ([ ("agda-version", RString (agda_version o));
       ("bdist-compress-exe", RBool (bdist_compress_exe o));
       ("bdist-name", RString (bdist_name o));
       ("bdist-upload", RBool (bdist_upload o));
       ("disable-cluster-counting", RBool (disable_cluster_counting o));
       ("force-build", RBool (force_build o));
       ("force-no-build", RBool (force_no_build o));
       ("ghc-version-match-exact", RBool (ghc_version_match_exact o));
       ("ghc-version-range", RString (ghc_version_range o));
       ("cabal-version", RString (cabal_version o));
       ("disable-matcher", RBool (disable_matcher o));
       ("enable-stack", RBool (enable_stack o));
       ("ghc-version", RString (ghc_version o));
       ("stack-no-global", RBool (stack_no_global o));
       ("stack-setup-ghc", RBool (stack_setup_ghc o));
       ("stack-version", RString (stack_version o));
       ("extra-include-dirs", RStrings (extra_include_dirs o));
       ("extra-lib-dirs", RStrings (extra_lib_dirs o));
       ("ghc-supported-versions", RStrings (ghc_supported_versions o)) ]
     ++ match icu_version o with
        | Some v => [("icu-version", RString v)]
        | None => []
        end
     ++ match upx_version o with
        | Some v => [("upx-version", RString v)]
        | None => []
        end)).

(** The resolved value of a declared flag, and of a declared option. *)
Definition flag_value (k : SetupAgdaFlag) (o : BuildOptions) : bool :=
  match k with
  | bdist_compress_exe_flag => bdist_compress_exe o
  | bdist_upload_flag => bdist_upload o
  | disable_cluster_counting_flag => disable_cluster_counting o
  | force_build_flag => force_build o
  | force_no_build_flag => force_no_build o
  | ghc_version_match_exact_flag => ghc_version_match_exact o
  | disable_matcher_flag => disable_matcher o
  | enable_stack_flag => enable_stack o
  | stack_no_global_flag => stack_no_global o
  | stack_setup_ghc_flag => stack_setup_ghc o
  end.

Definition option_value (k : SetupAgdaOption) (o : BuildOptions) : string :=
  match k with
  | agda_version_opt => agda_version o
  | bdist_name_opt => bdist_name o
  | ghc_version_range_opt => ghc_version_range o
  | cabal_version_opt => cabal_version o
  | ghc_version_opt => ghc_version o
  | stack_version_opt => stack_version o
  end.

(** Two option records that differ at most in ['icu-version']. *)
Definition same_except_icu (o o' : BuildOptions) : Prop :=
  (forall k, option_value k o' = option_value k o) /\
  (forall k, flag_value k o' = flag_value k o) /\
  extra_include_dirs o' = extra_include_dirs o /\
  extra_lib_dirs o' = extra_lib_dirs o /\
  ghc_supported_versions o' = ghc_supported_versions o /\
  package_info_cache o' = package_info_cache o /\
  upx_version o' = upx_version o.

(** *** Comparing GHC versions respecting ['ghc-version-match-exact'] *)

(** What [semver.parse] returns for a version it accepts. *)
Record SemVer := {
  major : N;
  minor : N;
  patch : N
}.

(** The answer, and the warnings [core.warning] is given on the way.
    [semver_parse] is [semver.parse], with [None] for [null]. *)
Definition ghcVersionMatch (semver_parse : string -> option SemVer)
    (options : BuildOptions) (v1 v2 : string) : bool * list string :=
  if ghc_version_match_exact options then (String.eqb v1 v2, [])
  else
    match semver_parse v1 with
    | None => (false, ["Could not parse GHC version " ++ v1])
    | Some sv1 =>
        match semver_parse v2 with
        | None => (false, ["Could not parse GHC version " ++ v2])
        | Some sv2 =>
            ((major sv1 =? major sv2)%N && (minor sv1 =? minor sv2)%N, [])
        end
    end.

End opts.

(** ** util/icu.ts: resolving the ICU version *)

Module icu.
Import opts.

(** The parameter type [opts.SetupOptions] is the options record of
    [opts.ts]; the function reads ['agda-version'] and writes
    ['icu-version']. *)
Definition resolveIcuVersion (options : BuildOptions) : BuildOptions :=
  if simver.gte (agda_version options) "2.6.2" then
    set_icu_version "71.1" options
  else if simver.gte (agda_version options) "2.5.3" then
    set_icu_version "67.1" options
  else options.

End icu.

(** ** Sequential effects: calls to the collaborators and their log *)

Module Eff.

(** The calls the pipeline makes to its collaborators. *)
Inductive Call :=
  | DownloadTool (url : string)
  | MkdirP (dir : string)
  | Cp (source dest : string)
  | CpR (source dest : string)
  | SetupUpx
  | Patchelf (args : list string)
  | Otool (args : list string)
  | Dumpbin (args : list string)
  | GetOutput (prog : string) (args : list string)
  | IcuBundle (dir : string)
  | AgdaTest (agdaBin agdaDataDir : string)
  | GlobCreate (pattern : string)
  | Glob (pattern : string)
  | UploadArtifact (name : string) (files : list string) (rootDir : string)
                   (continueOnError : bool) (retentionDays : nat).

Inductive Level := info | warning | debug | error.

(** What an observer sees, in order: log lines, promises that are
    started and not awaited, and awaited calls with their outcome
    ([true]: fulfilled, [false]: rejected). *)
Inductive Entry :=
  | Log (l : Level) (msg : string)
  | Started (c : Call)
  | Called (c : Call) (ok : bool).

Definition Trace := list Entry.

(** A computation runs from the trace so far, ends with a value or a
    thrown error, and extends the trace. *)
Definition M (A : Type) : Type := Trace -> Result A * Trace.

Definition ret {A} (a : A) : M A := fun t => (Ok a, t).

Definition bind {A B} (c : M A) (k : A -> M B) : M B := fun t =>
  match c t with
  | (Ok a, t') => k a t'
  | (Throw e, t') => (Throw e, t')
  end.

(** [try { c } catch (error) { h error }]. *)
Definition try_catch {A} (c : M A) (h : Error -> M A) : M A := fun t =>
  match c t with
  | (Ok a, t') => (Ok a, t')
  | (Throw e, t') => h e t'
  end.

(** [core.info], [core.warning], [core.debug], [core.error]. *)
Definition log (l : Level) (msg : string) : M unit := fun t =>
  (Ok tt, (t ++ [Log l msg])%list).

(** An awaited call: the collaborator answers, knowing the history. *)
Definition call {A} (c : Call) (answer : Trace -> Result A) : M A := fun t =>
  let r := answer t in (r, (t ++ [Called c (is_ok r)])%list).

(** A call whose promise is dropped: nothing it does later reaches the
    caller. *)
Definition start (c : Call) : M unit := fun t => (Ok tt, (t ++ [Started c])%list).

(** [for (const x of xs) await body(x)]. *)
Fixpoint for_each {A} (xs : list A) (body : A -> M unit) : M unit :=
  match xs with
  | [] => ret tt
  | x :: xs' => bind (body x) (fun _ => for_each xs' body)
  end.

Definition when (b : bool) (c : M unit) : M unit := if b then c else ret tt.

(** *** Reading a trace *)

(** A publication: a call of the artifact client, awaited or not. *)
Definition is_upload (e : Entry) : bool :=
  match e with
  | Called (UploadArtifact _ _ _ _ _) _ | Started (UploadArtifact _ _ _ _ _) => true
  | _ => false
  end.

(** A smoke test, whatever its outcome. *)
Definition is_test (e : Entry) : bool :=
  match e with
  | Called (AgdaTest _ _) _ | Started (AgdaTest _ _) => true
  | _ => false
  end.

(** A fetch of a prebuilt distribution. *)
Definition is_download (e : Entry) : bool :=
  match e with
  | Called (DownloadTool _) _ | Started (DownloadTool _) => true
  | _ => false
  end.

(** A run of the compression tool on an executable ([prog --best bin]),
    with its outcome. *)
Definition compress_attempt (e : Entry) : option (string * bool) :=
  match e with
  | Called (GetOutput _ [flag; bin]) ok =>
      if String.eqb flag "--best" then Some (bin, ok) else None
  | _ => None
  end.

(** The compression attempts of a trace, in order. *)
Definition compress_attempts (t : Trace) : list (string * bool) :=
  omap compress_attempt t.

(** [c] always extends the trace, and only by entries that satisfy [P]. *)
Definition emits {A} (P : Entry -> Prop) (c : M A) : Prop :=
  forall t, exists r new, c t = (r, (t ++ new)%list) /\ Forall P new.

(** An entry of the assembly phase: neither a smoke test nor a
    publication. *)
Definition preparatory (e : Entry) : Prop :=
  is_upload e = false /\ is_test e = false.

(** The calls that belong to compression: setting UPX up, running it, and
    listing the needed libraries around it. *)
Definition is_compression_call (c : Call) : bool :=
  match c with
  | SetupUpx | GetOutput _ _ | Patchelf _ | Otool _ | Dumpbin _ => true
  | _ => false
  end.

(** [c] extends the trace, and when it throws, the last thing that
    happened is a failed call outside compression. *)
Definition strict {A} (c : M A) : Prop :=
  forall t, exists r new,
    c t = (r, (t ++ new)%list) /\
    (forall err, r = Throw err ->
       exists cl, last new = Some (Called cl false) /\ is_compression_call cl = false).

(** A failed call that does not belong to compression. *)
Definition failed_elsewhere (e : Entry) : bool :=
  match e with
  | Called c false => negb (is_compression_call c)
  | _ => false
  end.

(** A line logged with [core.error]. *)
Definition is_error_line (e : Entry) : bool :=
  match e with
  | Log error _ => true
  | _ => false
  end.

(** What the assembly phase of [upload] is made of: dropped [mkdirP]
    promises, copies, the compression calls, the bundling of ICU, and
    info and debug lines. *)
Definition assembly_entry (e : Entry) : bool :=
  match e with
  | Started (MkdirP _) => true
  | Called (Cp _ _) _ | Called (CpR _ _) _ | Called (IcuBundle _) _ => true
  | Called c _ => is_compression_call c
  | Log info _ | Log debug _ => true
  | _ => false
  end.

(** [c] extends the trace; it returns normally only if no call outside
    compression failed, and such a failure is the last thing it does. *)
Definition halting {A} (c : M A) : Prop :=
  forall t, exists r new,
    c t = (r, (t ++ new)%list) /\
    (is_ok r = true -> Forall (fun e => failed_elsewhere e = false) new) /\
    (forall pre e post,
       new = (pre ++ e :: post)%list -> failed_elsewhere e = true ->
       post = [] /\ is_ok r = false).

(** A trace with a publication: a fulfilled call of the artifact client. *)
Definition published (new : Trace) : Prop :=
  exists name files rootDir keepGoing days,
    Called (UploadArtifact name files rootDir keepGoing days) true ∈ new.

End Eff.

Notation "'do' x <- c ; k" := (Eff.bind c (fun x => k))
  (at level 10, x name, c at level 100, k at level 200).
Notation "'run' c ; k" := (Eff.bind c (fun _ => k))
  (at level 10, c at level 100, k at level 200).

(** ** setup-agda/bdist.ts: download or package a binary distribution *)

Module bdist.
Import opts Eff.

(** The facts of the host and the pure collaborators: the detected OS,
    [node:os], [node:path], Mustache rendering, the package index, and
    the names [opts.ts] and [util] export that are not among the
    sources. *)
Record Host := {
  os : OS;
  os_arch : string;
  os_platform : string;
  os_release : string;
  os_EOL : string;
  os_homedir : string;
  path_join : list string -> string;
  Mustache_render : string -> gmap string string -> string;
  packageIndex : gmap string string;
  getDefaultPackageName : string;
  shouldCompressExe : BuildOptions -> bool;
  agdaBinNames : list string;
  agdaBinName : string
}.

(** The answer of [artifactClient.uploadArtifact]. *)
Record UploadResponse := {
  artifactName : string;
  failedItems : list string
}.

(** The collaborators with effects; each answers an awaited call, given
    the history up to the call. *)
Record World := {
  tc_downloadTool : string -> Trace -> Result string;
  util_cp : string -> string -> Trace -> Result unit;
  util_cpR : string -> string -> Trace -> Result unit;
  setupUpx : BuildOptions -> Trace -> Result string;
  util_patchelf : list string -> Trace -> Result string;
  util_otool : list string -> Trace -> Result string;
  util_dumpbin : list string -> Trace -> Result string;
  util_getOutput : string -> list string -> Trace -> Result string;
  icu_bundle : string -> BuildOptions -> Trace -> Result unit;
  util_agdaTest : string -> string -> Trace -> Result unit;
  glob_create : string -> Trace -> Result unit;
  globber_glob : string -> Trace -> Result (list string);
  uploadArtifact :
    string -> list string -> string -> Trace -> Result UploadResponse
}.

Section pipeline.

Variable H : Host.
Variable W : World.

(** [opts.agdaDir()]. *)
Definition agdaDir : string :=
  match os H with
  | linux | macos => path_join H [os_homedir H; ".agda"]
  | windows => path_join H [os_homedir H; "AppData"; "Roaming"; "agda"]
  end.

(** [pick(options, keys)] keeps the keys the object has: the two
    optional versions only when they are set. *)
Definition renderName (template : string) (options : BuildOptions) : string :=
  let picked : gmap string string :=
    list_to_map
      ([ ("agda-version", agda_version options);
         ("ghc-version", ghc_version options);
         ("cabal-version", cabal_version options);
         ("stack-version", stack_version options) ]
       ++ match icu_version options with
          | Some v => [("icu-version", v)]
          | None => []
          end
       ++ match upx_version options with
          | Some v => [("upx-version", v)]
          | None => []
          end) in
  Mustache_render H template
    (<["release" := os_release H]>
       (<["platform" := os_platform H]>
          (<["arch" := os_arch H]> picked))).

Definition download (options : BuildOptions) : M (option string) :=
  let bdistName := renderName (getDefaultPackageName H) options in
  match packageIndex H !! bdistName with
  | Some bdistUrl =>
      run log info ("Found package " ++ bdistName);
      try_catch
        (run log info ("Downloading package " ++ bdistName ++ " from " ++ bdistUrl);
         do path <- call (DownloadTool bdistUrl) (tc_downloadTool W bdistUrl);
         ret (Some path))
        (fun error =>
           run log warning ("Failed to download package " ++ bdistName
                            ++ ": " ++ message error);
           ret None)
  | None =>
      run log info ("Could not find package " ++ bdistName);
      ret None
  end.

Definition printNeededLibs (binPath : string) : M unit :=
  try_catch
    (do output <-
       match os H with
       | linux => call (Patchelf ["--print-needed"; binPath])
                       (util_patchelf W ["--print-needed"; binPath])
       | macos => call (Otool ["-L"; binPath])
                       (util_otool W ["-L"; binPath])
       | windows => call (Dumpbin ["/imports"; binPath])
                         (util_dumpbin W ["/imports"; binPath])
       end;
     log info ("Needed libraries:" ++ os_EOL H ++ output))
    (fun error => log debug (message error)).

Definition compressBin (upxExe binPath : string) : M unit :=
  run printNeededLibs binPath;
  do _out <- call (GetOutput upxExe ["--best"; binPath])
                  (util_getOutput W upxExe ["--best"; binPath]);
  printNeededLibs binPath.

(** The block of [upload] under [// Compress binaries:]. *)
Definition compressBinaries (bdistDir : string) (options : BuildOptions) : M unit :=
  when (shouldCompressExe H options)
    (try_catch
       (do upxExe <- call SetupUpx (setupUpx W options);
        for_each (agdaBinNames H) (fun binName =>
          compressBin upxExe (path_join H [bdistDir; "bin"; binName])))
       (fun error => log debug (message error))).

(** The globber is created with [followSymbolicLinks],
    [implicitDescendants] and [matchDirectories] all off; the two
    [util.mkdirP] promises are not awaited. *)
Definition upload (installDir : string) (options : BuildOptions) : M string :=
  let bdistName := renderName (bdist_name options) options in
  let bdistDir := path_join H [agdaDir; "bdist"; bdistName] in
  run start (MkdirP bdistDir);
  run start (MkdirP (path_join H [bdistDir; "bin"]));
  run for_each (agdaBinNames H) (fun binName =>
        call (Cp (path_join H [installDir; "bin"; binName])
                 (path_join H [bdistDir; "bin"; binName]))
             (util_cp W (path_join H [installDir; "bin"; binName])
                        (path_join H [bdistDir; "bin"; binName])));
  run call (CpR (path_join H [installDir; "data"]) bdistDir)
           (util_cpR W (path_join H [installDir; "data"]) bdistDir);
  run compressBinaries bdistDir options;
  run when (bool_decide (icu_version options <> None))
           (call (IcuBundle bdistDir) (icu_bundle W bdistDir options));
  run call (AgdaTest (path_join H [bdistDir; "bin"; agdaBinName H])
                     (path_join H [bdistDir; "data"]))
           (util_agdaTest W (path_join H [bdistDir; "bin"; agdaBinName H])
                            (path_join H [bdistDir; "data"]));
  run call (GlobCreate (path_join H [bdistDir; "**"; "*"]))
           (glob_create W (path_join H [bdistDir; "**"; "*"]));
  do files <- call (Glob (path_join H [bdistDir; "**"; "*"]))
                   (globber_glob W (path_join H [bdistDir; "**"; "*"]));
  do uploadInfo <- call (UploadArtifact bdistName files bdistDir true 90)
                        (uploadArtifact W bdistName files bdistDir);
  run when (0 <? length (failedItems uploadInfo))%nat
           (log error (JS.join (os_EOL H)
                         ("Failed to upload:" :: failedItems uploadInfo)));
  ret (artifactName uploadInfo).

(** *** The phases of [upload], named for the statements below *)

(** Everything [upload] does before the smoke test. *)
Definition assemble (installDir : string) (options : BuildOptions) : M unit :=
  let bdistName := renderName (bdist_name options) options in
  let bdistDir := path_join H [agdaDir; "bdist"; bdistName] in
  run start (MkdirP bdistDir);
  run start (MkdirP (path_join H [bdistDir; "bin"]));
  run for_each (agdaBinNames H) (fun binName =>
        call (Cp (path_join H [installDir; "bin"; binName])
                 (path_join H [bdistDir; "bin"; binName]))
             (util_cp W (path_join H [installDir; "bin"; binName])
                        (path_join H [bdistDir; "bin"; binName])));
  run call (CpR (path_join H [installDir; "data"]) bdistDir)
           (util_cpR W (path_join H [installDir; "data"]) bdistDir);
  run compressBinaries bdistDir options;
  when (bool_decide (icu_version options <> None))
       (call (IcuBundle bdistDir) (icu_bundle W bdistDir options)).

(** Everything [upload] does after the smoke test. *)
Definition publish (options : BuildOptions) : M string :=
  let bdistName := renderName (bdist_name options) options in
  let bdistDir := path_join H [agdaDir; "bdist"; bdistName] in
  run call (GlobCreate (path_join H [bdistDir; "**"; "*"]))
           (glob_create W (path_join H [bdistDir; "**"; "*"]));
  do files <- call (Glob (path_join H [bdistDir; "**"; "*"]))
                   (globber_glob W (path_join H [bdistDir; "**"; "*"]));
  do uploadInfo <- call (UploadArtifact bdistName files bdistDir true 90)
                        (uploadArtifact W bdistName files bdistDir);
  run when (0 <? length (failedItems uploadInfo))%nat
           (log error (JS.join (os_EOL H)
                         ("Failed to upload:" :: failedItems uploadInfo)));
  ret (artifactName uploadInfo).

(** The two arguments of the smoke test. *)
Definition testBin (options : BuildOptions) : string :=
  path_join H [path_join H [agdaDir; "bdist"; renderName (bdist_name options) options];
               "bin"; agdaBinName H].
Definition testData (options : BuildOptions) : string :=
  path_join H [path_join H [agdaDir; "bdist"; renderName (bdist_name options) options];
               "data"].

(** The path of an executable inside the distribution. *)
Definition binPathIn (bdistDir binName : string) : string :=
  path_join H [bdistDir; "bin"; binName].

(** The inspection [printNeededLibs] runs on each OS. *)
Definition inspector (binPath : string) : Call :=
  match os H with
  | linux => Patchelf ["--print-needed"; binPath]
  | macos => Otool ["-L"; binPath]
  | windows => Dumpbin ["/imports"; binPath]
  end.

(** The distribution directory of [upload]. *)
Definition bdistDirOf (options : BuildOptions) : string :=
  path_join H [agdaDir; "bdist"; renderName (bdist_name options) options].

(** What the copying steps of [upload] leave in the trace when every
    copy succeeds: the two dropped [mkdirP] promises, one copy for each
    executable, in order, and the copy of the data directory. *)
Definition copied (installDir : string) (options : BuildOptions) : Trace :=
  ([Started (MkdirP (bdistDirOf options));
    Started (MkdirP (path_join H [bdistDirOf options; "bin"]))]
   ++ map (fun binName =>
             Called (Cp (path_join H [installDir; "bin"; binName])
                        (path_join H [bdistDirOf options; "bin"; binName])) true)
          (agdaBinNames H)
   ++ [Called (CpR (path_join H [installDir; "data"]) (bdistDirOf options)) true])%list.

(** What the bundling step leaves in the trace when it succeeds: one
    call when an ICU version is set, nothing otherwise. *)
Definition bundled (options : BuildOptions) : Trace :=
  match icu_version options with
  | Some _ => [Called (IcuBundle (bdistDirOf options)) true]
  | None => []
  end.

(** [asm] is the trace of a complete assembly started from [t0]: the
    successful copies, then a run of the compression block, then the
    successful bundling. *)
Definition assembled (installDir : string) (options : BuildOptions)
    (t0 asm : Trace) : Prop :=
  exists compression,
    compressBinaries (bdistDirOf options) options (t0 ++ copied installDir options)%list
    = (Ok tt, ((t0 ++ copied installDir options) ++ compression)%list) /\
    asm = (copied installDir options ++ compression ++ bundled options)%list.

End pipeline.

End bdist.

(** ** Sequential effects over any set of calls *)

Module Proc.

Section calls.

(** The calls of one module's collaborators. *)
Context {C : Type}.

(** Log lines and awaited calls with their outcome, in order. *)
Inductive Entry :=
  | Log (l : Eff.Level) (msg : string)
  | Called (c : C) (ok : bool).

Definition M (A : Type) : Type := list Entry -> Result A * list Entry.

Definition ret {A} (a : A) : M A := fun t => (Ok a, t).

Definition bind {A B} (c : M A) (k : A -> M B) : M B := fun t =>
  match c t with
  | (Ok a, t') => k a t'
  | (Throw e, t') => (Throw e, t')
  end.

(** [throw Error(msg)]. *)
Definition throw {A} (msg : string) : M A := fun t => (Throw (MkError msg), t).

(** [try { c } catch (error) { h error }]. *)
Definition try_catch {A} (c : M A) (h : Error -> M A) : M A := fun t =>
  match c t with
  | (Ok a, t') => (Ok a, t')
  | (Throw e, t') => h e t'
  end.

Definition log (l : Eff.Level) (msg : string) : M unit := fun t =>
  (Ok tt, (t ++ [Log l msg])%list).

(** An awaited call: the collaborator answers, knowing the history. *)
Definition call {A} (c : C) (answer : list Entry -> Result A) : M A := fun t =>
  let r := answer t in (r, (t ++ [Called c (is_ok r)])%list).

(** [for (const x of xs) await body(x)]. *)
Fixpoint for_each {A} (xs : list A) (body : A -> M unit) : M unit :=
  match xs with
  | [] => ret tt
  | x :: xs' => bind (body x) (fun _ => for_each xs' body)
  end.

(** [for (const x of xs) s = await body(s, x)], for a loop that updates a
    local. *)
Fixpoint for_fold {A S} (xs : list A) (s : S) (body : S -> A -> M S) : M S :=
  match xs with
  | [] => ret s
  | x :: xs' => bind (body s x) (fun s' => for_fold xs' s' body)
  end.

End calls.

Arguments Entry C : clear implicits.
Arguments M C A : clear implicits.

End Proc.

Notation "'step' x <- c ; k" := (Proc.bind c (fun x => k))
  (at level 10, x name, c at level 100, k at level 200).
Notation "'also' c ; k" := (Proc.bind c (fun _ => k))
  (at level 10, c at level 100, k at level 200).

(** ** util/icu.ts: installing ICU *)

Module icu_install.
Import opts.

Definition icu67UrlWindows : string :=
  "https://github.com/unicode-org/icu/releases/download/release-67-1/icu4c-67_1-Win64-MSVC2017.zip".
Definition icu71UrlWindows : string :=
  "https://github.com/unicode-org/icu/releases/download/release-71-1/icu4c-71_1-Win64-MSVC2019.zip".
Definition icu67UrlLinux : string :=
  "https://github.com/unicode-org/icu/releases/download/release-67-1/icu4c-67_1-Ubuntu18.04-x64.tgz".
Definition icu71UrlLinux : string :=
  "https://github.com/unicode-org/icu/releases/download/release-71-1/icu4c-71_1-Ubuntu20.04-x64.tgz".

(** The calls of [installICU]: the tool cache and [exec.execOutput]. *)
Inductive Call :=
  | DownloadTool (url : string)
  | ExtractZip (file dest : string)
  | ExtractTar (file dest : string) (flags : list string)
  | ExecOutput (prog : string) (args : list string).

(** The detected OS, [path.join], and [agda.agdaDir()] of the module
    [util/agda], which is not among the sources. *)
Record Host := {
  os : OS;
  path_join : list string -> string;
  agdaDir : string
}.

Record World := {
  tc_downloadTool : string -> list (Proc.Entry Call) -> Result string;
  tc_extractZip : string -> string -> list (Proc.Entry Call) -> Result string;
  tc_extractTar :
    string -> string -> list string -> list (Proc.Entry Call) -> Result string;
  exec_execOutput :
    string -> list string -> list (Proc.Entry Call) -> Result string
}.

(** The object [installICU] resolves to. *)
Record IcuDirs := {
  extraLibDir : string;
  extraIncludeDir : string
}.

(** How [opts.os] prints inside a template literal. *)
Definition os_name (o : OS) : string :=
  match o with
  | linux => "linux"
  | macos => "macos"
  | windows => "windows"
  end.

Section installICU.

Variable H : Host.
Variable W : World.

Definition installDir (version : string) : string :=
  path_join H [agdaDir H; "icu"; version].

Definition couldNotInstall (version : string) : string :=
  "Could not install ICU-" ++ version ++ " for " ++ os_name (os H).

(** A [switch] over the version with no [default]: an unlisted version
    leaves [icuPath] and [icuDir] at the empty string. *)
Definition installICU (version : string) : Proc.M Call IcuDirs :=
  match os H with
  | windows =>
      step found <-
        (if String.eqb version "67.1" then
           step icuPath <- Proc.call (DownloadTool icu67UrlWindows)
                                     (tc_downloadTool W icu67UrlWindows);
           Proc.ret (icuPath, "icu4c-67_1-Win64-MSVC2017")
         else if String.eqb version "71.1" then
           step icuPath <- Proc.call (DownloadTool icu71UrlWindows)
                                     (tc_downloadTool W icu71UrlWindows);
           Proc.ret (icuPath, "icu4c-71_1-Win64-MSVC2019")
         else Proc.ret ("", ""));
      let icuPath := fst found in
      let icuDir := snd found in
      step installDirTC <-
        Proc.call (ExtractZip icuPath (installDir version))
                  (tc_extractZip W icuPath (installDir version));
      Proc.ret {| extraLibDir := path_join H [installDirTC; icuDir; "bin64"];
                  extraIncludeDir := path_join H [installDirTC; icuDir; "include"] |}
  | linux =>
      step icuPath <-
        (if String.eqb version "67.1" then
           Proc.call (DownloadTool icu67UrlLinux) (tc_downloadTool W icu67UrlLinux)
         else if String.eqb version "71.1" then
           Proc.call (DownloadTool icu71UrlLinux) (tc_downloadTool W icu71UrlLinux)
         else Proc.ret "");
      step installDirTC <-
        Proc.call (ExtractTar icuPath (installDir version)
                     ["--extract"; "--gzip"; "--strip-components=4"])
                  (tc_extractTar W icuPath (installDir version)
                     ["--extract"; "--gzip"; "--strip-components=4"]);
      Proc.ret {| extraLibDir := path_join H [installDirTC; "lib"];
                  extraIncludeDir := path_join H [installDirTC; "include"] |}
  | macos =>
      if String.eqb version "71.1" then
        step out <- Proc.call (ExecOutput "brew" ["--prefix"])
                              (exec_execOutput W "brew" ["--prefix"]);
        let brewPrefix := JS.trim out in
        also Proc.call (ExecOutput "brew" ["install"; "icu4c"])
                       (exec_execOutput W "brew" ["install"; "icu4c"]);
        let installPath := path_join H [brewPrefix; "opt"; "icu4c"] in
        Proc.ret {| extraLibDir := path_join H [installPath; "lib"];
                    extraIncludeDir := path_join H [installPath; "include"] |}
      else Proc.throw (couldNotInstall version)
  end.

End installICU.

(** The archive [installICU] fetches for an OS and a version, if any. *)
Definition icuUrl (o : OS) (version : string) : option string :=
  match o with
  | windows =>
      if String.eqb version "67.1" then Some icu67UrlWindows
      else if String.eqb version "71.1" then Some icu71UrlWindows
      else None
  | linux =>
      if String.eqb version "67.1" then Some icu67UrlLinux
      else if String.eqb version "71.1" then Some icu71UrlLinux
      else None
  | macos => None
  end.

(** The URLs fetched in a trace, in order. *)
Definition downloads (t : list (Proc.Entry Call)) : list string :=
  omap (fun e => match e with
                 | Proc.Called (DownloadTool url) _ => Some url
                 | _ => None
                 end) t.

End icu_install.

(** ** setup-agda/build-from-sdist/stack.ts: building with Stack *)

Module stack.
Import opts.

Definition name : string := "stack".

(** The calls of this module: [util] and [@actions/glob]. *)
Inductive Call :=
  | MkdirP (dir : string)
  | Stack (args : list string) (cwd : string)
  | StackGetLocalBin (ghcVersion : string)
  | Cp (source dest : string)
  | RmRF (path : string)
  | GlobCreate (pattern : string)
  | Glob (pattern : string).

(** [node:path], [node:os], [semver.valid], and the names [opts] and [util]
    export that are not among the sources. *)
Record Host := {
  path_join : list string -> string;
  path_basename : string -> string -> string;
  os_EOL : string;
  semver_valid : string -> option string;
  shouldEnableClusterCounting : BuildOptions -> bool;
  shouldEnableOptimiseHeavily : BuildOptions -> bool;
  agdaBinNames : list string
}.

Record World := {
  util_mkdirP : string -> list (Proc.Entry Call) -> Result unit;
  util_stack : list string -> string -> list (Proc.Entry Call) -> Result string;
  util_stackGetLocalBin : string -> list (Proc.Entry Call) -> Result string;
  util_cp : string -> string -> list (Proc.Entry Call) -> Result unit;
  util_rmRF : string -> list (Proc.Entry Call) -> Result unit;
  glob_create : string -> list (Proc.Entry Call) -> Result unit;
  globber_glob : string -> list (Proc.Entry Call) -> Result (list string)
}.

(** [flags.push(x)]. *)
Definition push (flags : list string) (x : string) : list string :=
  (flags ++ [x])%list.

(** [s.substring(n)]. *)
Definition substring_from (n : nat) (s : string) : string :=
  string_of_list_ascii (drop n (list_ascii_of_string s)).

Section stack.

Variable H : Host.
Variable W : World.

Definition buildFlags (options : BuildOptions) : list string :=
  let flags := [] in
  let flags := push flags ("--stack-yaml=stack-" ++ ghc_version options ++ ".yaml") in
  let flags :=
    if negb (stack_setup_ghc options)
    then push (push flags "--no-install-ghc") "--system-ghc"
    else flags in
  let flags := push flags "--no-executable-profiling" in
  let flags := push flags "--no-library-profiling" in
  let flags :=
    if shouldEnableClusterCounting H options
    then push flags "--flag=Agda:enable-cluster-counting"
    else flags in
  let flags :=
    if shouldEnableOptimiseHeavily H options
    then push flags "--flag=Agda:optimise-heavily"
    else flags in
  let flags :=
    fold_left (fun flags includeDir => push flags ("--extra-include-dirs=" ++ includeDir))
              (extra_include_dirs options) flags in
  let flags :=
    fold_left (fun flags libDir => push flags ("--extra-lib-dirs=" ++ libDir))
              (extra_lib_dirs options) flags in
  flags.

Definition build (sourceDir installDir : string) (options : BuildOptions)
  : Proc.M Call unit :=
  also Proc.call (MkdirP (path_join H [installDir; "bin"]))
                 (util_mkdirP W (path_join H [installDir; "bin"]));
  also Proc.call (Stack ("build" :: buildFlags options ++ ["--copy-bins"])%list sourceDir)
                 (util_stack W ("build" :: buildFlags options ++ ["--copy-bins"])%list sourceDir);
  step localBinDir <- Proc.call (StackGetLocalBin (ghc_version options))
                                (util_stackGetLocalBin W (ghc_version options));
  let installBinDir := path_join H [installDir; "bin"] in
  also Proc.call (MkdirP installBinDir) (util_mkdirP W installBinDir);
  Proc.for_each (agdaBinNames H) (fun binName =>
    let localBinPath := path_join H [localBinDir; binName] in
    let installBinPath := path_join H [installBinDir; binName] in
    also Proc.call (Cp localBinPath installBinPath)
                   (util_cp W localBinPath installBinPath);
    Proc.try_catch
      (Proc.call (RmRF localBinPath) (util_rmRF W localBinPath))
      (fun error =>
         Proc.log Eff.debug ("Could not clean up executable at " ++ localBinPath))).

Definition supportedGhcVersions (sourceDir : string) : Proc.M Call (list string) :=
  let versions := [] in
  also Proc.call (GlobCreate (path_join H [sourceDir; "stack-*.yaml"]))
                 (glob_create W (path_join H [sourceDir; "stack-*.yaml"]));
  step stackYamlPaths <-
    Proc.call (Glob (path_join H [sourceDir; "stack-*.yaml"]))
              (globber_glob W (path_join H [sourceDir; "stack-*.yaml"]));
  step versions <-
    Proc.for_fold stackYamlPaths versions (fun versions stackYamlPath =>
      let version :=
        substring_from (String.length "stack-")
                       (path_basename H stackYamlPath ".yaml") in
      match semver_valid H version with
      | Some _ => Proc.ret (push versions version)
      | None =>
          also Proc.log Eff.warning
                 ("Could not parse GHC version '" ++ version ++ "' from "
                  ++ stackYamlPath);
          Proc.ret versions
      end);
  if (length versions =? 0)%nat then
    Proc.throw (JS.join (os_EOL H)
      [ "Could not determine supported GHC versions for building with Stack:";
        "No files matching 'stack-*.yaml' in " ++ sourceDir ++ "." ])
  else Proc.ret versions.

End stack.

(** The version a [stack-*.yaml] path names. *)
Definition versionOf (H : Host) (stackYamlPath : string) : string :=
  substring_from (String.length "stack-") (path_basename H stackYamlPath ".yaml").

(** The destinations of the copies in a trace, in order. *)
Definition copies (t : list (Proc.Entry Call)) : list (string * bool) :=
  omap (fun e => match e with
                 | Proc.Called (Cp _ dest) ok => Some (dest, ok)
                 | _ => None
                 end) t.

(** A clean-up that failed, and a debug line. *)
Definition failed_cleanup (e : Proc.Entry Call) : bool :=
  match e with
  | Proc.Called (RmRF _) false => true
  | _ => false
  end.

Definition debug_line (e : Proc.Entry Call) : bool :=
  match e with
  | Proc.Log Eff.debug _ => true
  | _ => false
  end.

(** A warning line. *)
Definition warnings (t : list (Proc.Entry Call)) : list string :=
  omap (fun e => match e with
                 | Proc.Log Eff.warning msg => Some msg
                 | _ => None
                 end) t.

(** [semver.valid(v) !== null]. *)
Definition valid (H : Host) (v : string) : bool :=
  match semver_valid H v with
  | Some _ => true
  | None => false
  end.

(** A failed call other than a clean-up. *)
Definition failed_step (e : Proc.Entry Call) : bool :=
  match e with
  | Proc.Called (RmRF _) _ => false
  | Proc.Called _ ok => negb ok
  | _ => false
  end.

End stack.

(** ** Concrete options, hosts and collaborators used in the examples *)

Module Samples.
Import opts.

(** Options as [getOptions] resolves them from the given versions, with
    every flag off. *)
Definition options (agda ghc : string) : BuildOptions :=
  {| agda_version := agda;
     bdist_compress_exe := false;
     bdist_name := "";
     bdist_upload := false;
     disable_cluster_counting := false;
     force_build := false;
     force_no_build := false;
     ghc_version_match_exact := false;
     ghc_version_range := "*";
     cabal_version := "latest";
     disable_matcher := false;
     enable_stack := false;
     ghc_version := ghc;
     stack_no_global := false;
     stack_setup_ghc := false;
     stack_version := "latest";
     extra_include_dirs := [];
     extra_lib_dirs := [];
     ghc_supported_versions := [];
     icu_version := None;
     package_info_cache := None;
     upx_version := None |}.

(** The same options with [bdist-compress-exe] switched on. *)
Definition compressing (o : BuildOptions) : BuildOptions :=
  {| agda_version := agda_version o;
     bdist_compress_exe := true;
     bdist_name := bdist_name o;
     bdist_upload := bdist_upload o;
     disable_cluster_counting := disable_cluster_counting o;
     force_build := force_build o;
     force_no_build := force_no_build o;
     ghc_version_match_exact := ghc_version_match_exact o;
     ghc_version_range := ghc_version_range o;
     cabal_version := cabal_version o;
     disable_matcher := disable_matcher o;
     enable_stack := enable_stack o;
     ghc_version := ghc_version o;
     stack_no_global := stack_no_global o;
     stack_setup_ghc := stack_setup_ghc o;
     stack_version := stack_version o;
     extra_include_dirs := extra_include_dirs o;
     extra_lib_dirs := extra_lib_dirs o;
     ghc_supported_versions := ghc_supported_versions o;
     icu_version := icu_version o;
     package_info_cache := package_info_cache o;
     upx_version := upx_version o |}.

(** The same options, named by the default template. *)
Definition named (o : BuildOptions) : BuildOptions :=
  set_bdist_name bdistNameDefaultTemplate o.

(** The line feed, for [os.EOL]. *)
Definition LF : string := String (ascii_of_N 10) "".

(** An [inputs] section in the shape of [action.yml]: every option with a
    default, the flags without. *)
Definition inputSpec : gmap string (option string) :=
  list_to_map
    [ ("agda-version", Some "latest");
      ("bdist-name", Some "");
      ("ghc-version-range", Some "*");
      ("cabal-version", Some "latest");
      ("ghc-version", Some "latest");
      ("stack-version", Some "latest");
      ("bdist-upload", None);
      ("force-build", None);
      ("force-no-build", None);
      ("enable-stack", None) ].

(** The same, with white space around the default of ['agda-version']. *)
Definition inputSpec_padded : gmap string (option string) :=
  <["agda-version" := Some " 2.6.4 "]> inputSpec.

(** A range checker that refuses one string, and a template parser that
    refuses an unclosed tag. *)
Definition validRange (r : string) : option string :=
  if String.eqb r "not a range" then None else Some r.

Definition parseTemplate (t : string) : option Error :=
  if String.eqb t "{{" then Some (MkError "Unclosed tag at 2") else None.

(** Inputs given as a record: padded strings, and flags in several
    representations. *)
Definition inputs : Inputs :=
  InputsRecord (list_to_map
    [ ("agda-version", RString " 2.6.4 ");
      ("bdist-name", RString " agda - {{{agda-version}}} ");
      ("bdist-upload", RBool true);
      ("enable-stack", RString "0");
      ("force-build", RString "false");
      ("force-no-build", RBool false);
      ("stack-setup-ghc", RString "") ]).

(** What [inputs] resolves to. *)
Definition resolved : BuildOptions :=
  {| agda_version := "2.6.4";
     bdist_compress_exe := false;
     bdist_name := "agda-{{{agda-version}}}";
     bdist_upload := true;
     disable_cluster_counting := false;
     force_build := false;
     force_no_build := false;
     ghc_version_match_exact := false;
     ghc_version_range := "*";
     cabal_version := "latest";
     disable_matcher := false;
     enable_stack := true;
     ghc_version := "latest";
     stack_no_global := false;
     stack_setup_ghc := false;
     stack_version := "latest";
     extra_include_dirs := [];
     extra_lib_dirs := [];
     ghc_supported_versions := [];
     icu_version := None;
     package_info_cache := None;
     upx_version := None |}.

(** *** A Linux host with two executables *)

(** [Mustache.render] on the templates used here: text and unescaped
    tags [{{{key}}}] whose key has neither a dot nor white space.  Text
    is kept; a tag is replaced by the value of its key in the view, and
    by nothing when the view has no such key.  [key] is [None] in text
    and holds the characters read so far inside a tag. *)
Fixpoint render_from (view : gmap string string) (key : option string)
    (template : string) : string :=
  match key, template with
  | _, EmptyString => ""
  | None, String "{" (String "{" (String "{" rest)) =>
      render_from view (Some "") rest
  | None, String c rest => String c (render_from view None rest)
  | Some k, String "}" (String "}" (String "}" rest)) =>
      default "" (view !! k) ++ render_from view None rest
  | Some k, String c rest => render_from view (Some (k ++ String c "")) rest
  end.

Definition render (template : string) (view : gmap string string) : string :=
  render_from view None template.

(** [path.join] on segments that need no normalising (no ['.'] or
    ['..'], no separator doubled or at an end): empty segments are
    dropped and the others joined with ['/']. *)
Definition join_path (segments : list string) : string :=
  JS.join "/" (List.filter (fun s => negb (String.eqb s "")) segments).

Definition host : bdist.Host :=
  {| bdist.os := linux;
     bdist.os_arch := "x64";
     bdist.os_platform := "linux";
     bdist.os_release := "5.15.0";
     bdist.os_EOL := LF;
     bdist.os_homedir := "/home/runner";
     bdist.path_join := join_path;
     bdist.Mustache_render := render;
     bdist.packageIndex :=
       {[ "agda-2.6.4-x64-linux" := "https://example.org/agda-2.6.4.zip" ]};
     bdist.getDefaultPackageName := bdistNameDefaultTemplate;
     bdist.shouldCompressExe := compressExe;
     bdist.agdaBinNames := ["agda"; "agda-mode"];
     bdist.agdaBinName := "agda" |}.

(** Collaborators that all succeed, except that the network is down and
    UPX fails on the executable [agda]. *)
Definition world : bdist.World :=
  {| bdist.tc_downloadTool := fun _ _ => Throw (MkError "connect ETIMEDOUT");
     bdist.util_cp := fun _ _ _ => Ok tt;
     bdist.util_cpR := fun _ _ _ => Ok tt;
     bdist.setupUpx := fun _ _ => Ok "/opt/upx/upx";
     bdist.util_patchelf := fun _ _ => Ok "libc.so.6";
     bdist.util_otool := fun _ _ => Ok "";
     bdist.util_dumpbin := fun _ _ => Ok "";
     bdist.util_getOutput := fun _ args _ =>
       if bool_decide (args = ["--best";
            "/home/runner/.agda/bdist/agda-2.6.4-x64-linux/bin/agda"])
       then Throw (MkError "upx: CantPackException")
       else Ok "";
     bdist.icu_bundle := fun _ _ _ => Ok tt;
     bdist.util_agdaTest := fun _ _ _ => Ok tt;
     bdist.glob_create := fun _ _ => Ok tt;
     bdist.globber_glob := fun _ _ =>
       Ok ["/home/runner/.agda/bdist/agda-2.6.4-x64-linux/bin/agda"];
     bdist.uploadArtifact := fun name _ _ _ =>
       Ok {| bdist.artifactName := name; bdist.failedItems := [] |} |}.

(** The same collaborators, with a smoke test that fails. *)
Definition world_broken : bdist.World :=
  {| bdist.tc_downloadTool := bdist.tc_downloadTool world;
     bdist.util_cp := bdist.util_cp world;
     bdist.util_cpR := bdist.util_cpR world;
     bdist.setupUpx := bdist.setupUpx world;
     bdist.util_patchelf := bdist.util_patchelf world;
     bdist.util_otool := bdist.util_otool world;
     bdist.util_dumpbin := bdist.util_dumpbin world;
     bdist.util_getOutput := bdist.util_getOutput world;
     bdist.icu_bundle := bdist.icu_bundle world;
     bdist.util_agdaTest := fun _ _ _ => Throw (MkError "agda: exit code 1");
     bdist.glob_create := bdist.glob_create world;
     bdist.globber_glob := bdist.globber_glob world;
     bdist.uploadArtifact := bdist.uploadArtifact world |}.

(** *** Inputs for the resolver *)

(** Both force flags set. *)
Definition inputs_conflict : Inputs :=
  InputsRecord (list_to_map
    [ ("agda-version", RString "2.6.4");
      ("force-build", RString "true");
      ("force-no-build", RBool true) ]).

(** [inputs] with a key the action does not declare. *)
Definition inputs_extra : Inputs :=
  InputsRecord (list_to_map
    [ ("agda-version", RString " 2.6.4 ");
      ("bdist-name", RString " agda - {{{agda-version}}} ");
      ("bdist-upload", RBool true);
      ("enable-stack", RString "0");
      ("force-build", RString "false");
      ("force-no-build", RBool false);
      ("stack-setup-ghc", RString "");
      ("verbose", RBool true) ]).

(** A [semver.parse] that accepts three numeric components. *)
Definition parseSemVer (v : string) : option SemVer :=
  match simver.parse v with
  | Some [a; b; c] => Some {| major := a; minor := b; patch := c |}
  | _ => None
  end.

(** *** Hosts and collaborators for installing ICU *)

Definition icu_host (o : OS) : icu_install.Host :=
  {| icu_install.os := o;
     icu_install.path_join := JS.join "/";
     icu_install.agdaDir := "/home/runner/.agda" |}.

(** Every collaborator succeeds. *)
Definition icu_world : icu_install.World :=
  {| icu_install.tc_downloadTool := fun _ _ => Ok "/tmp/download";
     icu_install.tc_extractZip := fun _ dest _ => Ok dest;
     icu_install.tc_extractTar := fun _ dest _ _ => Ok dest;
     icu_install.exec_execOutput := fun _ _ _ => Ok "/usr/local" |}.

(** *** A host and collaborators for building with Stack *)

Fixpoint last_segment (cur : list ascii) (l : list ascii) : list ascii :=
  match l with
  | [] => cur
  | c :: l' =>
      if Ascii.eqb c "/" then last_segment [] l'
      else last_segment (cur ++ [c])%list l'
  end.

Fixpoint strip_prefix (p l : list ascii) : option (list ascii) :=
  match p, l with
  | [], _ => Some l
  | a :: p', b :: l' => if Ascii.eqb a b then strip_prefix p' l' else None
  | _ :: _, [] => None
  end.

(** A stand-in for [path.basename(p, ext)] on POSIX paths. *)
Definition basename (p ext : string) : string :=
  let name := last_segment [] (list_ascii_of_string p) in
  match strip_prefix (rev (list_ascii_of_string ext)) (rev name) with
  | Some r => string_of_list_ascii (rev r)
  | None => string_of_list_ascii name
  end.

Definition stack_host : stack.Host :=
  {| stack.path_join := JS.join "/";
     stack.path_basename := basename;
     stack.os_EOL := LF;
     stack.semver_valid := fun v =>
       match parseSemVer v with Some _ => Some v | None => None end;
     stack.shouldEnableClusterCounting := supportsClusterCounting;
     stack.shouldEnableOptimiseHeavily := supportsOptimiseHeavily;
     stack.agdaBinNames := ["agda"; "agda-mode"] |}.

(** Three [stack-*.yaml] files, one of which names no version; every call
    succeeds. *)
Definition stack_world : stack.World :=
  {| stack.util_mkdirP := fun _ _ => Ok tt;
     stack.util_stack := fun _ _ _ => Ok "";
     stack.util_stackGetLocalBin := fun _ _ => Ok "/home/runner/.local/bin";
     stack.util_cp := fun _ _ _ => Ok tt;
     stack.util_rmRF := fun _ _ => Ok tt;
     stack.glob_create := fun _ _ => Ok tt;
     stack.globber_glob := fun _ _ =>
       Ok [ "/src/agda/stack-9.2.5.yaml";
            "/src/agda/stack-nightly.yaml";
            "/src/agda/stack-8.10.7.yaml" ] |}.

End Samples.

(** * Properties *)

(** ** The version comparator *)

Module simver_facts.
Import simver.

Lemma gte_true_compare v1 v2 :
  gte v1 v2 = true -> compare v1 v2 = Some Eq \/ compare v1 v2 = Some Gt.
Proof.
  unfold gte. destruct (compare v1 v2) as [[]|]; intros; auto; discriminate.
Qed.

Lemma gte_true_parses v1 v2 : gte v1 v2 = true -> is_Some (parse v1).
Proof.
  unfold gte, compare. destruct (parse v1); [eauto | discriminate].
Qed.

Lemma lt_true_gte_false v1 v2 : lt v1 v2 = true -> gte v1 v2 = false.
Proof.
  unfold lt, gte. destruct (compare v1 v2) as [[]|]; intros; auto; discriminate.
Qed.

(** When both versions are well formed, [lt] is the complement of
    [gte]; on a malformed version both answer [false]. *)
Lemma gte_false_lt v1 v2 :
  is_Some (parse v1) -> is_Some (parse v2) ->
  gte v1 v2 = false -> lt v1 v2 = true.
Proof.
  unfold gte, lt, compare. intros [a ->] [b ->].
  destruct (lex _ _); intros; auto; discriminate.
Qed.

(** Trailing zero components do not matter. *)
Example eq_trailing_zero : eq "8.4" "8.4.0" = true.
Proof. reflexivity. Qed.

Example gte_malformed : gte "nightly" "2.5.3" = false /\ lt "nightly" "2.5.3" = false.
Proof. split; reflexivity. Qed.

End simver_facts.

(** ** The compatibility rules *)

Module opts_facts.
Import opts.

(** C1 (the code departs from the claim and from its own note): the
    compression decision is the user's flag on every platform; it never
    looks at the operating system.  With the flag set, it answers
    [true] in a process whose platform is macOS (and likewise on
    Windows), where the note in the function says executables are not
    compressed. *)
Theorem compressExe_true_on_macos_and_windows :
  detectOS "darwin" = Ok macos /\
  detectOS "win32" = Ok windows /\
  compressExe (Samples.compressing (Samples.options "2.6.4" "latest")) = true.
Proof. repeat split. Qed.

(** The decision is the flag, whatever the platform. *)
Lemma compressExe_is_flag options :
  compressExe options = bdist_compress_exe options.
Proof. reflexivity. Qed.

(** C2, as stated, fails: no options at all make the static-linking rule
    answer [true], even with a GHC version of at least 8.4; the function
    does not read the platform, so this holds on all three. *)
Lemma supportsExecutableStatic_never_true :
  ~ exists options,
      simver.gte (ghc_version options) "8.4" = true /\
      supportsExecutableStatic options = true.
Proof. intros (options & _ & Hs). discriminate Hs. Qed.

(** C2 (amended): static-executable linking is disabled unconditionally,
    on every platform: the rule answers [false] for all options,
    whatever the GHC version. *)
Theorem supportsExecutableStatic_disabled options :
  supportsExecutableStatic options = false.
Proof. reflexivity. Qed.

Example supportsExecutableStatic_ghc_9 :
  simver.gte (ghc_version (Samples.options "2.6.4" "9.0.1")) "8.4" = true /\
  supportsExecutableStatic (Samples.options "2.6.4" "9.0.1") = false.
Proof. split; reflexivity. Qed.

(** C4 (the code departs from the claim and from its own note): on
    macOS the rule answers [true] for the releases below 21, that is for
    macOS 11 Big Sur (kernel release 20.x) and earlier, and [false] from
    release 21 on; the note says UPX does not support macOS 11 or
    earlier. *)
Theorem supportsUPX_inverted_on_macos :
  supportsUPX macos "20.6.0" = true /\
  supportsUPX macos "21.6.0" = false.
Proof. split; reflexivity. Qed.

(** What the code computes: usable off macOS, and on macOS exactly for
    a well-formed release below 21. *)
Lemma supportsUPX_spec os release :
  supportsUPX os release = true <-> os <> macos \/ simver.lt release "21" = true.
Proof.
  unfold supportsUPX. rewrite orb_true_iff, negb_true_iff, bool_decide_eq_false.
  reflexivity.
Qed.

(** C6: the cluster-counting rule is the conjunction of its four
    clauses (Agda at least 2.5.3, the user has not disabled it, Stack is
    not enabled, Agda at least 2.6.2); for Agda 2.5.0 it is [false]
    whatever the other options are. *)
Theorem supportsClusterCounting_clauses options :
  (supportsClusterCounting options = true <->
     simver.gte (agda_version options) "2.5.3" = true /\
     disable_cluster_counting options = false /\
     enable_stack options = false /\
     simver.gte (agda_version options) "2.6.2" = true) /\
  (agda_version options = "2.5.0" -> supportsClusterCounting options = false).
Proof.
  unfold supportsClusterCounting. split.
  - rewrite !andb_true_iff, !negb_true_iff. tauto.
  - intros ->. reflexivity.
Qed.

Lemma supportsClusterCounting_clauses_witness :
  supportsClusterCounting (Samples.options "2.6.4" "9.0.1") = true /\
  supportsClusterCounting (Samples.options "2.5.0" "9.0.1") = false.
Proof.
  split.
  - apply (proj1 (supportsClusterCounting_clauses
                    (Samples.options "2.6.4" "9.0.1"))).
    repeat split; reflexivity.
  - apply (proj2 (supportsClusterCounting_clauses
                    (Samples.options "2.5.0" "9.0.1"))).
    reflexivity.
Defined.

(** Agda 2.6.4 with GHC 9.0.1 on Linux, cluster counting not disabled,
    Stack not enabled: cluster counting and heavy optimisation are on,
    static linking is off. *)
Example rules_agda_2_6_4 :
  supportsClusterCounting (Samples.options "2.6.4" "9.0.1") = true /\
  supportsOptimiseHeavily (Samples.options "2.6.4" "9.0.1") = true /\
  supportsExecutableStatic (Samples.options "2.6.4" "9.0.1") = false.
Proof. repeat split. Qed.

End opts_facts.

(** ** Trimming and white-space removal *)

Module JS_facts.
Import JS.

Lemma drop_ws_head_ok l : head_ok (drop_ws l).
Proof.
  induction l as [|c l IH]; simpl; [exact I|].
  destruct (is_ws c) eqn:E; [exact IH | exact E].
Qed.

Lemma head_ok_drop_ws l : head_ok l -> drop_ws l = l.
Proof. destruct l as [|c l]; simpl; [reflexivity | intros ->; reflexivity]. Qed.

Lemma drop_ws_suffix l : exists pre, l = (pre ++ drop_ws l)%list.
Proof.
  induction l as [|c l [pre IH]]; simpl.
  - exists []. reflexivity.
  - destruct (is_ws c).
    + exists (c :: pre). simpl. congruence.
    + exists []. reflexivity.
Qed.

Lemma head_ok_app_l l k : head_ok (l ++ k)%list -> head_ok l.
Proof. destruct l; simpl; auto. Qed.

Lemma trim_list_trimmed l : trimmed (trim_list l).
Proof.
  unfold trimmed, trim_list.
  set (m := drop_ws l).
  assert (Hm : head_ok m) by apply drop_ws_head_ok.
  split.
  - destruct (drop_ws_suffix (rev m)) as [pre Hpre].
    apply (f_equal (@rev ascii)) in Hpre.
    rewrite rev_involutive, rev_app_distr in Hpre.
    rewrite Hpre in Hm. exact (head_ok_app_l _ _ Hm).
  - rewrite rev_involutive. apply drop_ws_head_ok.
Qed.

Lemma trimmed_trim_list l : trimmed l -> trim_list l = l.
Proof.
  intros [H1 H2]. unfold trim_list.
  rewrite (head_ok_drop_ws l H1), (head_ok_drop_ws _ H2).
  apply rev_involutive.
Qed.

Lemma trim_list_idem l : trim_list (trim_list l) = trim_list l.
Proof. apply trimmed_trim_list, trim_list_trimmed. Qed.

(** [trim] is idempotent. *)
Lemma trim_idem s : trim (trim s) = trim s.
Proof.
  unfold trim. rewrite list_ascii_of_string_of_list_ascii.
  now rewrite trim_list_idem.
Qed.

Lemma trim_empty : trim "" = "".
Proof. reflexivity. Qed.

Lemma split_ws_nonempty l : split_ws l <> [].
Proof.
  induction l as [|c l IH]; simpl; [discriminate|].
  destruct (is_ws c).
  - destruct l as [|c' l']; [discriminate|].
    destruct (is_ws c'); [exact IH | discriminate].
  - destruct (split_ws l); discriminate.
Qed.

(** Splitting at white space and joining the pieces removes exactly the
    white space. *)
Lemma join_split_ws l : join_empty (split_ws l) = List.filter no_ws l.
Proof.
  unfold join_empty.
  induction l as [|c l IH]; [reflexivity|].
  cbn [split_ws List.filter]. unfold no_ws at 1.
  destruct (is_ws c) eqn:E; simpl.
  - destruct l as [|c' l']; [reflexivity|].
    destruct (is_ws c'); simpl; exact IH.
  - rewrite <- IH. destruct (split_ws l) eqn:S; [|reflexivity].
    now apply split_ws_nonempty in S.
Qed.

Lemma Forall_no_ws_trimmed l :
  Forall (fun c => no_ws c = true) l -> trimmed l.
Proof.
  intros HF. assert (Hh : forall k, Forall (fun c => no_ws c = true) k -> head_ok k).
  { intros [|c k] Hk; simpl; [exact I|].
    inversion Hk as [|? ? Hc _]; subst. unfold no_ws in Hc.
    now apply negb_true_iff in Hc. }
  split; apply Hh; [exact HF|].
  apply List.Forall_forall. intros c Hc. apply in_rev in Hc.
  revert c Hc. now apply List.Forall_forall.
Qed.

Lemma filter_no_ws_Forall l :
  Forall (fun c => no_ws c = true) (List.filter no_ws l).
Proof.
  apply List.Forall_forall. intros c Hc.
  now apply filter_In in Hc.
Qed.

Lemma filter_no_ws_id l :
  Forall (fun c => no_ws c = true) l -> List.filter no_ws l = l.
Proof.
  induction 1 as [|c l Hc _ IH]; [reflexivity|].
  cbn [List.filter]. now rewrite Hc, IH.
Qed.

(** A trimmed, non-empty list keeps its first character when the white
    space is removed. *)
Lemma filter_no_ws_nonempty l :
  trimmed l -> l <> [] -> List.filter no_ws l <> [].
Proof.
  intros [Hh _] Hne. destruct l as [|c l]; [congruence|].
  simpl in Hh. cbn [List.filter]. unfold no_ws at 1. now rewrite Hh.
Qed.

End JS_facts.

(** ** Resolving the ICU version *)

Module icu_facts.
Import opts icu.

Lemma set_icu_version_frame v o : same_except_icu o (set_icu_version v o).
Proof.
  unfold same_except_icu. repeat split; intros []; reflexivity.
Qed.

Lemma same_except_icu_refl o : same_except_icu o o.
Proof. unfold same_except_icu. repeat split. Qed.

Lemma resolveIcuVersion_frame options :
  same_except_icu options (resolveIcuVersion options).
Proof.
  unfold resolveIcuVersion.
  destruct (simver.gte (agda_version options) "2.6.2");
    [apply set_icu_version_frame|].
  destruct (simver.gte (agda_version options) "2.5.3");
    [apply set_icu_version_frame | apply same_except_icu_refl].
Qed.

(** Outside the two version ranges the options come back as they are. *)
Lemma resolveIcuVersion_otherwise options :
  simver.gte (agda_version options) "2.6.2" = false ->
  ~ (simver.gte (agda_version options) "2.5.3" = true /\
     simver.lt (agda_version options) "2.6.2" = true) ->
  resolveIcuVersion options = options.
Proof.
  intros H262 Hnot. unfold resolveIcuVersion. rewrite H262.
  destruct (simver.gte (agda_version options) "2.5.3") eqn:H253; [|reflexivity].
  exfalso. apply Hnot. split; [reflexivity|].
  apply simver_facts.gte_false_lt; [| eexists; reflexivity | exact H262].
  exact (simver_facts.gte_true_parses _ _ H253).
Qed.

(** C10: [resolveIcuVersion] sets ['icu-version'] to 71.1 for Agda at
    least 2.6.2, to 67.1 for Agda at least 2.5.3 and below 2.6.2, and
    otherwise hands the options back as they are (so an absent
    ['icu-version'] stays absent); in every case all other fields are
    unchanged. *)
Theorem resolveIcuVersion_cases options :
  (simver.gte (agda_version options) "2.6.2" = true ->
     icu_version (resolveIcuVersion options) = Some "71.1") /\
  (simver.gte (agda_version options) "2.5.3" = true ->
   simver.lt (agda_version options) "2.6.2" = true ->
     icu_version (resolveIcuVersion options) = Some "67.1") /\
  (simver.gte (agda_version options) "2.6.2" = false ->
   ~ (simver.gte (agda_version options) "2.5.3" = true /\
      simver.lt (agda_version options) "2.6.2" = true) ->
     resolveIcuVersion options = options /\
     (icu_version options = None ->
        icu_version (resolveIcuVersion options) = None)) /\
  same_except_icu options (resolveIcuVersion options).
Proof.
  split; [|split; [|split]].
  - unfold resolveIcuVersion. intros ->. reflexivity.
  - unfold resolveIcuVersion. intros H253 Hlt.
    apply simver_facts.lt_true_gte_false in Hlt.
    rewrite Hlt, H253. reflexivity.
  - intros H262 Hnot.
    rewrite (resolveIcuVersion_otherwise options H262 Hnot). tauto.
  - apply resolveIcuVersion_frame.
Qed.

Lemma resolveIcuVersion_cases_witness :
  icu_version (resolveIcuVersion (Samples.options "2.6.4" "latest")) = Some "71.1" /\
  icu_version (resolveIcuVersion (Samples.options "2.5.4" "latest")) = Some "67.1" /\
  resolveIcuVersion (Samples.options "2.5.0" "latest") = Samples.options "2.5.0" "latest".
Proof.
  split; [|split].
  - apply (proj1 (resolveIcuVersion_cases (Samples.options "2.6.4" "latest"))).
    reflexivity.
  - apply (proj1 (proj2 (resolveIcuVersion_cases (Samples.options "2.5.4" "latest"))));
      reflexivity.
  - apply (proj1 (proj2 (proj2 (resolveIcuVersion_cases (Samples.options "2.5.0" "latest"))))).
    + reflexivity.
    + intros [Hge _]. discriminate Hge.
Defined.

End icu_facts.

(** ** Option resolution *)

Module getOptions_facts.
Import opts.

Lemma maybeInput_asInputs_option o k :
  maybeInput (asInputs o) (option_name k) = RString (option_value k o).
Proof.
  unfold asInputs, maybeInput.
  destruct k, (icu_version o), (upx_version o); vm_compute; reflexivity.
Qed.

Lemma maybeInput_asInputs_flag o k :
  maybeInput (asInputs o) (flag_name k) = RBool (flag_value k o).
Proof.
  unfold asInputs, maybeInput.
  destruct k, (icu_version o), (upx_version o); vm_compute; reflexivity.
Qed.

Lemma getOption_asInputs spec o k :
  getOption spec (asInputs o) k = Ok (JS.trim (option_value k o)).
Proof. unfold getOption. now rewrite maybeInput_asInputs_option. Qed.

Lemma getFlag_asInputs o k : getFlag (asInputs o) k = flag_value k o.
Proof.
  unfold getFlag. rewrite maybeInput_asInputs_flag.
  now destruct (flag_value k o).
Qed.

(** What [getOption] returns is trimmed, provided the declared default is
    when [getOption] falls back to it: an input is trimmed, a default is
    used as it is. *)
Lemma getOption_trimmed (spec : gmap string (option string)) inputs k s :
  (forall d, maybeInput inputs (option_name k) = RUndefined ->
             spec !! option_name k = Some (Some d) -> JS.trim d = d) ->
  getOption spec inputs k = Ok s -> JS.trim s = s.
Proof.
  unfold getOption.
  destruct (maybeInput inputs (option_name k)); try discriminate.
  - intros Hd. destruct (spec !! option_name k) as [[d|]|];
      intros [= <-]; [exact (Hd _ eq_refl eq_refl) | reflexivity | reflexivity].
  - intros _ [= <-]. apply JS_facts.trim_idem.
Qed.

(** The falsy list of [getFlag]. *)
Lemma getFlag_false_iff inputs k :
  getFlag inputs k = false <->
  maybeInput inputs (flag_name k) = RUndefined \/
  maybeInput inputs (flag_name k) = RString "" \/
  maybeInput inputs (flag_name k) = RBool false \/
  maybeInput inputs (flag_name k) = RString "false".
Proof.
  unfold getFlag. rewrite negb_false_iff.
  destruct (maybeInput inputs (flag_name k)) as [|[]|s|l];
    unfold includes; cbn [existsb sameValueZero Bool.eqb orb].
  - tauto.
  - split; [intros [=] | intros [|[|[|]]]; congruence].
  - tauto.
  - destruct (String.eqb_spec "" s) as [<-|Hne1]; [tauto|].
    destruct (String.eqb_spec "false" s) as [<-|Hne2]; [tauto|].
    split; [intros [=] | intros [|[|[|]]]; congruence].
  - split; [intros [=] | intros [|[|[|]]]; congruence].
Qed.

Lemma normalizeName_chars s :
  list_ascii_of_string (normalizeName s) =
  List.filter JS.no_ws (list_ascii_of_string s).
Proof.
  unfold normalizeName, JS.trim.
  rewrite JS_facts.join_split_ws, !list_ascii_of_string_of_list_ascii.
  apply JS_facts.trimmed_trim_list, JS_facts.Forall_no_ws_trimmed,
    JS_facts.filter_no_ws_Forall.
Qed.

Lemma list_ascii_of_string_inj s1 s2 :
  list_ascii_of_string s1 = list_ascii_of_string s2 -> s1 = s2.
Proof.
  intros E. apply (f_equal string_of_list_ascii) in E.
  now rewrite !string_of_list_ascii_of_string in E.
Qed.

(** Removing the white space a second time changes nothing. *)
Lemma normalizeName_idem s : normalizeName (normalizeName s) = normalizeName s.
Proof.
  apply list_ascii_of_string_inj.
  rewrite (normalizeName_chars (normalizeName s)), normalizeName_chars.
  apply JS_facts.filter_no_ws_id, JS_facts.filter_no_ws_Forall.
Qed.

Lemma trim_normalizeName s : JS.trim (normalizeName s) = normalizeName s.
Proof. unfold normalizeName. apply JS_facts.trim_idem. Qed.

(** A trimmed, non-empty name stays non-empty. *)
Lemma normalizeName_nonempty s :
  JS.trim s = s -> s <> "" -> normalizeName s <> "".
Proof.
  intros Ht Hne Hn.
  apply (f_equal list_ascii_of_string) in Hn.
  rewrite normalizeName_chars in Hn. simpl in Hn.
  revert Hn. apply JS_facts.filter_no_ws_nonempty.
  - apply (f_equal list_ascii_of_string) in Ht. unfold JS.trim in Ht.
    rewrite list_ascii_of_string_of_list_ascii in Ht.
    rewrite <- Ht. apply JS_facts.trim_list_trimmed.
  - intros E. apply Hne. now apply list_ascii_of_string_inj.
Qed.

Section resolver.

Variable spec : gmap string (option string).
Variable vr : string -> option string.
Variable mp : string -> option Error.
Variable eol : string.

Ltac split_options :=
  repeat match goal with
  | |- context [getOption ?s ?i ?x] =>
      let E := fresh "E" in
      destruct (getOption s i x) eqn:E; cbn [mbind result_bind]; [|discriminate]
  end.

(** What a successful resolution guarantees about its result. *)
Lemma getOptions_Ok_inv inputs o :
  getOptions spec vr mp eol inputs = Ok o ->
  (forall k, flag_value k o = getFlag inputs k) /\
  (forall k, k <> bdist_name_opt ->
     getOption spec inputs k = Ok (option_value k o)) /\
  (extra_include_dirs o = [] /\ extra_lib_dirs o = [] /\
   ghc_supported_versions o = [] /\ icu_version o = None /\
   package_info_cache o = None /\ upx_version o = None) /\
  (agda_version o <> "nightly" /\ ghc_version o = "latest" /\
   invalidRange vr (ghc_version_range o) = false /\
   force_build o && force_no_build o = false) /\
  exists n, getOption spec inputs bdist_name_opt = Ok n /\
    (n = "" /\ bdist_name o = "" /\ mp bdistNameDefaultTemplate = None \/
     n <> "" /\ bdist_name o = normalizeName n /\ mp (normalizeName n) = None).
Proof.
  unfold getOptions. split_options.
  cbn [agda_version ghc_version ghc_version_range force_build force_no_build bdist_name].
  destruct (String.eqb_spec a "nightly") as [|Hn]; [discriminate|].
  destruct (String.eqb_spec a3 "latest") as [->|]; [|discriminate].
  cbn [negb].
  destruct (invalidRange vr a1) eqn:Hr; [discriminate|].
  destruct (getFlag inputs force_build_flag && getFlag inputs force_no_build_flag) eqn:Hf;
    [discriminate|].
  destruct (String.eqb_spec a0 "") as [->|Hne].
  - destruct (mp bdistNameDefaultTemplate) eqn:Hmp; [discriminate|].
    intros [= <-]. cbn.
    refine (conj _ (conj _ (conj _ (conj _ _)))).
    + intros []; reflexivity.
    + intros []; try congruence; intros _; cbn; assumption.
    + repeat split.
    + repeat split; assumption.
    + exists "". split; [reflexivity|]. left. auto.
  - cbn [set_bdist_name bdist_name].
    destruct (mp (normalizeName a0)) eqn:Hmp; [discriminate|].
    intros [= <-]. cbn.
    refine (conj _ (conj _ (conj _ (conj _ _)))).
    + intros []; reflexivity.
    + intros []; try congruence; intros _; cbn; assumption.
    + repeat split.
    + repeat split; assumption.
    + exists a0. split; [reflexivity|]. right. auto.
Qed.

(** C5: a declared flag resolves to [false] exactly for the four falsy
    inputs (absent, the empty string, the boolean [false], the string
    "false"); any other input, the string "0" included, resolves to
    [true]; and the resolved options carry that value. *)
Theorem getFlag_falsy_list inputs k :
  (getFlag inputs k = false <->
     maybeInput inputs (flag_name k) = RUndefined \/
     maybeInput inputs (flag_name k) = RString "" \/
     maybeInput inputs (flag_name k) = RBool false \/
     maybeInput inputs (flag_name k) = RString "false") /\
  (maybeInput inputs (flag_name k) = RString "0" -> getFlag inputs k = true) /\
  (forall o, getOptions spec vr mp eol inputs = Ok o ->
             flag_value k o = getFlag inputs k).
Proof.
  split; [apply getFlag_false_iff | split].
  - intros H0. apply not_false_iff_true. intros Hf.
    apply getFlag_false_iff in Hf. rewrite H0 in Hf.
    destruct Hf as [|[|[|]]]; discriminate.
  - intros o Hrun. now apply (getOptions_Ok_inv inputs o Hrun).
Qed.

(** Resolution reads its inputs through [maybeInput] only. *)
Lemma getOptions_ext inputs1 inputs2 :
  (forall name, maybeInput inputs1 name = maybeInput inputs2 name) ->
  getOptions spec vr mp eol inputs1 = getOptions spec vr mp eol inputs2.
Proof.
  intros E. unfold getOptions, getOption, getFlag. rewrite !E. reflexivity.
Qed.

(** Resolved options, handed back as the inputs record, resolve to
    themselves. *)
Lemma getOptions_asInputs_fixpoint inputs o :
  (forall k d, maybeInput inputs (option_name k) = RUndefined ->
               spec !! option_name k = Some (Some d) -> JS.trim d = d) ->
  getOptions spec vr mp eol inputs = Ok o ->
  getOptions spec vr mp eol (asInputs o) = Ok o.
Proof.
  intros Hd Hrun.
  destruct (getOptions_Ok_inv _ _ Hrun)
    as (Hflags & Hopts & (Hx1 & Hx2 & Hx3 & Hx4 & Hx5 & Hx6)
        & (Hnightly & Hghc & Hrange & Hforce) & n & Hn & Hname).
  assert (Htrim : forall k, JS.trim (option_value k o) = option_value k o).
  { intros k. destruct (decide (k = bdist_name_opt)) as [->|Hk].
    - cbn. destruct Hname as [(_ & -> & _)|(_ & -> & _)];
        [reflexivity | apply trim_normalizeName].
    - exact (getOption_trimmed _ _ _ _ (Hd k) (Hopts k Hk)). }
  unfold getOptions.
  rewrite !getOption_asInputs, !getFlag_asInputs, !Htrim.
  cbn [mbind result_bind option_value flag_value
       agda_version ghc_version ghc_version_range force_build force_no_build bdist_name].
  destruct (String.eqb_spec (agda_version o) "nightly") as [|_]; [contradiction|].
  rewrite Hghc, Hrange, Hforce. cbn [String.eqb Ascii.eqb Bool.eqb negb].
  assert (Hrec : forall nm, bdist_name o = nm ->
    {| agda_version := agda_version o;
       bdist_compress_exe := bdist_compress_exe o;
       bdist_name := nm;
       bdist_upload := bdist_upload o;
       disable_cluster_counting := disable_cluster_counting o;
       force_build := force_build o;
       force_no_build := force_no_build o;
       ghc_version_match_exact := ghc_version_match_exact o;
       ghc_version_range := ghc_version_range o;
       cabal_version := cabal_version o;
       disable_matcher := disable_matcher o;
       enable_stack := enable_stack o;
       ghc_version := "latest";
       stack_no_global := stack_no_global o;
       stack_setup_ghc := stack_setup_ghc o;
       stack_version := stack_version o;
       extra_include_dirs := [];
       extra_lib_dirs := [];
       ghc_supported_versions := [];
       icu_version := None;
       package_info_cache := None;
       upx_version := None |} = o).
  { intros nm <-. destruct o; cbn in *. congruence. }
  destruct Hname as [(_ & Hb & Hmp)|(Hne & Hb & Hmp)].
  - rewrite Hb at 1. cbn [String.eqb]. rewrite Hmp. f_equal. now apply Hrec.
  - assert (Hnn : normalizeName n <> "").
    { apply normalizeName_nonempty; [|exact Hne].
      exact (getOption_trimmed _ _ _ _ (Hd bdist_name_opt) Hn). }
    destruct (String.eqb_spec (bdist_name o) "") as [Hb0|_]; [congruence|].
    unfold set_bdist_name. cbn [bdist_name].
    rewrite Hb, normalizeName_idem, Hmp. f_equal.
    rewrite <- Hb. cbn. apply Hrec. reflexivity.
Qed.

(** C9 (amended): resolution is idempotent on every input for which the
    declared defaults it falls back to carry no white space at either
    end.  For such an input, options that were resolved successfully and
    are fed back through the lookup capability (as the record itself, or
    as any record or function that answers each name with the record's
    field) resolve successfully again, to the same options.  (An input
    is trimmed, a declared default is used as it is.) *)
Theorem getOptions_idempotent inputs o inputs' :
  (forall k d, maybeInput inputs (option_name k) = RUndefined ->
               spec !! option_name k = Some (Some d) -> JS.trim d = d) ->
  getOptions spec vr mp eol inputs = Ok o ->
  (forall name, maybeInput inputs' name = maybeInput (asInputs o) name) ->
  getOptions spec vr mp eol inputs' = Ok o.
Proof.
  intros Hd Hrun Hsame.
  rewrite (getOptions_ext inputs' (asInputs o) Hsame).
  exact (getOptions_asInputs_fixpoint inputs o Hd Hrun).
Qed.
End resolver.


Example getOptions_sample :
  getOptions Samples.inputSpec Samples.validRange Samples.parseTemplate
    Samples.LF Samples.inputs = Ok Samples.resolved.
Proof. vm_compute. reflexivity. Qed.

Lemma getFlag_falsy_list_witness :
  getFlag Samples.inputs enable_stack_flag = true /\
  getFlag Samples.inputs force_build_flag = false /\
  flag_value enable_stack_flag Samples.resolved = true.
Proof.
  split; [|split].
  - apply (proj1 (proj2 (getFlag_falsy_list Samples.inputSpec Samples.validRange
                           Samples.parseTemplate Samples.LF Samples.inputs
                           enable_stack_flag))).
    vm_compute. reflexivity.
  - apply (proj1 (getFlag_falsy_list Samples.inputSpec Samples.validRange
                    Samples.parseTemplate Samples.LF Samples.inputs
                    force_build_flag)).
    right. right. right. vm_compute. reflexivity.
  - rewrite (proj2 (proj2 (getFlag_falsy_list Samples.inputSpec Samples.validRange
                             Samples.parseTemplate Samples.LF Samples.inputs
                             enable_stack_flag)) Samples.resolved).
    + vm_compute. reflexivity.
    + vm_compute. reflexivity.
Defined.

(** The defaults of the sample [inputs] section are trimmed. *)
Lemma inputSpec_trimmed k d :
  Samples.inputSpec !! option_name k = Some (Some d) -> JS.trim d = d.
Proof.
  intros H. destruct k; vm_compute in H; injection H as <-; reflexivity.
Qed.

Lemma getOptions_idempotent_witness :
  getOptions Samples.inputSpec Samples.validRange Samples.parseTemplate
    Samples.LF (asInputs Samples.resolved) = Ok Samples.resolved /\
  getOptions Samples.inputSpec Samples.validRange Samples.parseTemplate
    Samples.LF (InputsFunction (maybeInput (asInputs Samples.resolved)))
  = Ok Samples.resolved.
Proof.
  split;
    apply (getOptions_idempotent Samples.inputSpec Samples.validRange
             Samples.parseTemplate Samples.LF Samples.inputs);
    try (intros k d _; apply inputSpec_trimmed);
    try (vm_compute; reflexivity);
    intros name; reflexivity.
Defined.

(** C9, as stated, fails: with a declared default of ['agda-version']
    that has white space around it and no input at all, resolution
    succeeds and keeps the default as it is; fed back, the options
    resolve again, but to options with the version trimmed, which are not
    the same. *)
Lemma getOptions_not_idempotent :
  getOptions Samples.inputSpec_padded Samples.validRange Samples.parseTemplate
    Samples.LF InputsUndefined = Ok (Samples.options " 2.6.4 " "latest") /\
  getOptions Samples.inputSpec_padded Samples.validRange Samples.parseTemplate
    Samples.LF (asInputs (Samples.options " 2.6.4 " "latest"))
  = Ok (Samples.options "2.6.4" "latest") /\
  Samples.options "2.6.4" "latest" <> Samples.options " 2.6.4 " "latest".
Proof. repeat split; try (vm_compute; reflexivity). discriminate. Qed.

End getOptions_facts.


(** ** Effects and traces *)

Module Eff_facts.
Import Eff.
Local Open Scope list_scope.

Section emits.
Context {A B : Type} (P : Entry -> Prop).

Lemma emits_ret (a : A) : emits P (ret a).
Proof. intros t. exists (Ok a), []. split; [now rewrite app_nil_r | constructor]. Qed.

Lemma emits_log l msg : P (Log l msg) -> emits P (log l msg).
Proof. intros HP t. exists (Ok tt), [Log l msg]. split; [reflexivity | repeat constructor; exact HP]. Qed.

Lemma emits_start c : P (Started c) -> emits P (start c).
Proof. intros HP t. exists (Ok tt), [Started c]. split; [reflexivity | repeat constructor; exact HP]. Qed.

Lemma emits_call c (answer : Trace -> Result A) :
  (forall ok, P (Called c ok)) -> emits P (call c answer).
Proof.
  intros HP t. exists (answer t), [Called c (is_ok (answer t))].
  split; [reflexivity | repeat constructor; apply HP].
Qed.

Lemma emits_bind (c : M A) (k : A -> M B) :
  emits P c -> (forall a, emits P (k a)) -> emits P (bind c k).
Proof.
  intros Hc Hk t. unfold bind.
  destruct (Hc t) as (r & new & -> & Hnew).
  destruct r as [a|e].
  - destruct (Hk a (t ++ new)) as (r' & new' & -> & Hnew').
    exists r', (new ++ new'). rewrite app_assoc. split; [reflexivity|].
    now apply Forall_app.
  - now exists (Throw e), new.
Qed.

Lemma emits_try_catch (c : M A) (h : Error -> M A) :
  emits P c -> (forall e, emits P (h e)) -> emits P (try_catch c h).
Proof.
  intros Hc Hh t. unfold try_catch.
  destruct (Hc t) as (r & new & -> & Hnew).
  destruct r as [a|e].
  - now exists (Ok a), new.
  - destruct (Hh e (t ++ new)) as (r' & new' & -> & Hnew').
    exists r', (new ++ new'). rewrite app_assoc. split; [reflexivity|].
    now apply Forall_app.
Qed.

End emits.

Lemma emits_for_each {A} P (xs : list A) body :
  (forall x, emits P (body x)) -> emits P (for_each xs body).
Proof.
  intros Hb. induction xs as [|x xs IH]; simpl.
  - apply emits_ret.
  - apply emits_bind; [apply Hb | intros _; exact IH].
Qed.

Lemma emits_when P b c : emits P c -> emits P (when b c).
Proof. intros Hc. destruct b; [exact Hc | apply emits_ret]. Qed.

Lemma compress_attempts_app t1 t2 :
  compress_attempts (t1 ++ t2) = compress_attempts t1 ++ compress_attempts t2.
Proof. apply omap_app. Qed.

Lemma bind_bind {A B C} (c : M A) (k : A -> M B) (k' : B -> M C) t :
  bind (bind c k) k' t = bind c (fun a => bind (k a) k') t.
Proof. unfold bind. destruct (c t) as [[a|e] t']; reflexivity. Qed.

Lemma bind_ext {A B} (c : M A) (k k' : A -> M B) t :
  (forall a t', k a t' = k' a t') -> bind c k t = bind c k' t.
Proof. intros E. unfold bind. destruct (c t) as [[a|e] t']; [apply E | reflexivity]. Qed.

(** [bind] run from a trace, when its first part only emits [P]. *)
Lemma bind_run {A B} P (c : M A) (k : A -> M B) t :
  emits P c ->
  exists r new,
    Forall P new /\
    bind c k t = match r with
                 | Ok a => k a (t ++ new)
                 | Throw e => (Throw e, t ++ new)
                 end.
Proof.
  intros Hc. destruct (Hc t) as (r & new & E & HF).
  exists r, new. split; [exact HF|]. unfold bind. rewrite E. now destruct r.
Qed.

(** A [bind] that returns normally ran both of its parts. *)
Lemma bind_ok_inv {A B} (c : M A) (k : A -> M B) t b t' :
  bind c k t = (Ok b, t') ->
  exists a t1, c t = (Ok a, t1) /\ k a t1 = (Ok b, t').
Proof.
  unfold bind. destruct (c t) as [[a|e] t1]; [|discriminate].
  intros E. now exists a, t1.
Qed.

(** A call that returns normally was answered, and is recorded as
    fulfilled. *)
Lemma call_ok_inv {A} c (answer : Trace -> Result A) t a t' :
  call c answer t = (Ok a, t') ->
  answer t = Ok a /\ t' = t ++ [Called c true].
Proof.
  unfold call. destruct (answer t) as [a'|e]; cbn [is_ok]; intros [= <- <-]; auto.
Qed.

(** In a list that starts with entries failing [Q] and then [x], anything
    satisfying [Q] comes after [x]. *)
Lemma first_after {X} (Q : X -> bool) l1 x l2 pre e post :
  l1 ++ x :: l2 = pre ++ e :: post ->
  Forall (fun y => Q y = false) l1 -> Q x = false -> Q e = true ->
  x ∈ pre.
Proof.
  intros E HF Hx He. revert pre E.
  induction HF as [|y l1 Hy _ IH]; intros [|p pre] E; simplify_eq/=.
  - congruence.
  - left.
  - congruence.
  - right. eapply IH. eassumption.
Qed.

(** *** Throwing only after a failed call outside compression *)

Lemma strict_ret {A} (a : A) : strict (ret a).
Proof. intros t. exists (Ok a), []. split; [now rewrite app_nil_r | discriminate]. Qed.

Lemma strict_log l msg : strict (log l msg).
Proof. intros t. exists (Ok tt), [Log l msg]. split; [reflexivity | discriminate]. Qed.

Lemma strict_start c : strict (start c).
Proof. intros t. exists (Ok tt), [Started c]. split; [reflexivity | discriminate]. Qed.

Lemma strict_call {A} c (answer : Trace -> Result A) :
  is_compression_call c = false -> strict (call c answer).
Proof.
  intros Hc t. exists (answer t), [Called c (is_ok (answer t))].
  split; [reflexivity|]. intros err ->. now exists c.
Qed.

Lemma strict_bind {A B} (c : M A) (k : A -> M B) :
  strict c -> (forall a, strict (k a)) -> strict (bind c k).
Proof.
  intros Hc Hk t. unfold bind.
  destruct (Hc t) as (r & new & -> & Hr). destruct r as [a|e].
  - destruct (Hk a (t ++ new)) as (r' & new' & -> & Hr').
    exists r', (new ++ new'). split; [now rewrite app_assoc|].
    intros err Herr. destruct (Hr' err Herr) as (cl & Hl & Hcl).
    exists cl. split; [|exact Hcl]. rewrite last_app, Hl. reflexivity.
  - exists (Throw e), new. split; [reflexivity|].
    intros err [= <-]. now apply (Hr e).
Qed.

Lemma strict_for_each {A} (xs : list A) body :
  (forall x, strict (body x)) -> strict (for_each xs body).
Proof.
  intros Hb. induction xs as [|x xs IH]; simpl.
  - apply strict_ret.
  - apply strict_bind; [apply Hb | intros _; exact IH].
Qed.

Lemma strict_when b c : strict c -> strict (when b c).
Proof. intros Hc. destruct b; [exact Hc | apply strict_ret]. Qed.

End Eff_facts.

(** ** The download and packaging pipeline *)

Module bdist_facts.
Import opts Eff bdist Eff_facts.
Local Open Scope list_scope.

Ltac emits_tac :=
  repeat first
    [ match goal with |- forall _, _ => intro end
    | apply emits_bind | apply emits_try_catch | apply emits_for_each
    | apply emits_when | apply emits_ret | apply emits_log
    | apply emits_start | apply emits_call
    | split; reflexivity | reflexivity ].

Section pipeline.
Variable H : Host.
Variable W : World.

(** On a lookup hit the outcome is decided by the fetch alone. *)
Lemma download_hit options t0 url :
  packageIndex H !! renderName H (getDefaultPackageName H) options = Some url ->
  let name := renderName H (getDefaultPackageName H) options in
  let t1 := t0 ++ [Log info ("Found package " +:+ name);
                   Log info ("Downloading package " +:+ name +:+ " from " +:+ url)] in
  download H W options t0 =
  match tc_downloadTool W url t1 with
  | Ok path => (Ok (Some path), t1 ++ [Called (DownloadTool url) true])
  | Throw e =>
      (Ok None,
       t1 ++ [Called (DownloadTool url) false;
              Log warning ("Failed to download package " +:+ name +:+ ": "
                           +:+ message e)])
  end.
Proof.
  intros Hidx. cbv zeta. unfold download. rewrite Hidx.
  unfold bind, try_catch, log, call, ret. rewrite <- !app_assoc. cbn [app].
  destruct (tc_downloadTool W url _) as [path|err]; cbn [is_ok];
    rewrite <- ?app_assoc; reflexivity.
Qed.

(** C7: [download] never raises.  It returns [null] on a lookup miss
    (without fetching anything) and also when the fetch of a listed URL
    throws; it returns a path only after a successful fetch of the URL
    the index lists. *)
Theorem download_degrades options t0 :
  exists v new,
    download H W options t0 = (Ok v, t0 ++ new) /\
    (packageIndex H !! renderName H (getDefaultPackageName H) options = None ->
       v = None /\ Forall (fun e => is_download e = false) new) /\
    (forall url, Called (DownloadTool url) false ∈ new -> v = None) /\
    (forall path, v = Some path ->
       exists url,
         packageIndex H !! renderName H (getDefaultPackageName H) options
           = Some url /\
         Called (DownloadTool url) true ∈ new).
Proof.
  unfold download.
  destruct (packageIndex H !! renderName H (getDefaultPackageName H) options)
    as [url|] eqn:Hidx.
  - unfold bind, try_catch, log, call, ret.
    destruct (tc_downloadTool W url _) as [path|err] eqn:Hdl; cbn [is_ok].
    + eexists _, [_; _; _]. rewrite <- !app_assoc. split; [reflexivity|].
      split; [discriminate|]. split.
      * intros url' Hin. exfalso.
        repeat (apply elem_of_cons in Hin as [Hin|Hin]; [discriminate Hin|]).
        now apply elem_of_nil in Hin.
      * intros path' _. exists url. split; [reflexivity|]. right. right. left.
    + eexists _, [_; _; _; _]. rewrite <- !app_assoc. split; [reflexivity|].
      split; [discriminate|]. split; [reflexivity | discriminate].
  - unfold bind, log, ret. eexists _, [_]. split; [reflexivity|].
    split; [|split; [reflexivity | discriminate]].
    intros _. split; [reflexivity|]. repeat constructor.
Qed.


Lemma printNeededLibs_emits P binPath :
  (forall l msg, P (Log l msg)) ->
  (forall args ok, P (Called (Patchelf args) ok)) ->
  (forall args ok, P (Called (Otool args) ok)) ->
  (forall args ok, P (Called (Dumpbin args) ok)) ->
  emits P (printNeededLibs H W binPath).
Proof.
  intros. unfold printNeededLibs.
  apply emits_try_catch; [apply emits_bind|]; intros; try now apply emits_log.
  destruct (os H); now apply emits_call.
Qed.

Lemma compressBinaries_emits bdistDir options :
  emits preparatory (compressBinaries H W bdistDir options).
Proof.
  assert (Hp : forall binPath, emits preparatory (printNeededLibs H W binPath))
    by (intros; apply printNeededLibs_emits; intros; split; reflexivity).
  unfold compressBinaries, compressBin.
  apply emits_when, emits_try_catch; [|emits_tac].
  apply emits_bind; [emits_tac|]. intros upxExe.
  apply emits_for_each. intros binName.
  apply emits_bind; [apply Hp|]. intros _.
  apply emits_bind; [emits_tac|]. intros _. apply Hp.
Qed.

Lemma upload_phases installDir options t :
  upload H W installDir options t =
  bind (assemble H W installDir options) (fun _ =>
    bind (call (AgdaTest (testBin H options) (testData H options))
               (util_agdaTest W (testBin H options) (testData H options)))
         (fun _ => publish H W options)) t.
Proof.
  unfold upload, assemble, publish, testBin, testData. cbv zeta.
  symmetry.
  repeat (rewrite bind_bind; apply bind_ext; intros ? ?; cbv beta).
  reflexivity.
Qed.


Lemma assemble_emits installDir options :
  emits preparatory (assemble H W installDir options).
Proof.
  unfold assemble. cbv zeta.
  repeat (apply emits_bind; [|intros _]);
    try apply compressBinaries_emits; emits_tac.
Qed.

Lemma publish_emits options :
  emits (fun e => is_test e = false) (publish H W options).
Proof. unfold publish. emits_tac. Qed.

(** Whatever the collaborators answer, every call of the artifact client
    is preceded by a passed smoke test; and if a smoke test fails, it is
    the last thing that happens, its error is what [upload] throws, and
    the artifact client is never called. *)
Lemma upload_publishes_after_test installDir options t0 :
  exists r new,
    upload H W installDir options t0 = (r, t0 ++ new) /\
    (forall pre e post,
       new = pre ++ e :: post -> is_upload e = true ->
       Called (AgdaTest (testBin H options) (testData H options)) true ∈ pre) /\
    (forall bin data,
       Called (AgdaTest bin data) false ∈ new ->
       exists pre err,
         new = pre ++ [Called (AgdaTest bin data) false] /\
         util_agdaTest W bin data (t0 ++ pre) = Throw err /\
         r = Throw err /\
         Forall (fun e => is_upload e = false) new).
Proof.
  rewrite upload_phases.
  destruct (bind_run preparatory (assemble H W installDir options)
              (fun _ => bind (call (AgdaTest (testBin H options) (testData H options))
                                (util_agdaTest W (testBin H options) (testData H options)))
                             (fun _ => publish H W options)) t0
              (assemble_emits installDir options))
    as (r1 & new1 & Hprep & ->).
  assert (Hnu : Forall (fun e => is_upload e = false) new1)
    by (eapply Forall_impl; [exact Hprep | intros e [Hu _]; exact Hu]).
  assert (Hnt : Forall (fun e => is_test e = false) new1)
    by (eapply Forall_impl; [exact Hprep | intros e [_ Ht]; exact Ht]).
  destruct r1 as [[]|e1].
  2:{ (* the assembly failed: neither test nor publication *)
    exists (Throw e1), new1. split; [reflexivity|]. split.
    - intros pre e post -> Hup. exfalso.
      rewrite Forall_app, Forall_cons in Hnu. destruct Hnu as (_ & Hf & _). congruence.
    - intros bin data Hin. exfalso.
      rewrite Forall_forall in Hnt. now specialize (Hnt _ Hin). }
  unfold bind at 1, call at 1.
  destruct (util_agdaTest W (testBin H options) (testData H options) (t0 ++ new1))
    as [[]|err] eqn:Htest; cbn [is_ok].
  2:{ (* the smoke test failed *)
    exists (Throw err), (new1 ++ [Called (AgdaTest (testBin H options) (testData H options)) false]).
    rewrite app_assoc. split; [reflexivity|]. split.
    - intros pre e post E Hup. exfalso.
      assert (Hall : Forall (fun e => is_upload e = false)
                (new1 ++ [Called (AgdaTest (testBin H options) (testData H options)) false]))
        by (apply Forall_app; split; [exact Hnu | repeat constructor]).
      rewrite E, Forall_app, Forall_cons in Hall. destruct Hall as (_ & Hf & _). congruence.
    - intros bin data Hin. apply elem_of_app in Hin as [Hin|Hin].
      + exfalso. rewrite Forall_forall in Hnt. now specialize (Hnt _ Hin).
      + apply list_elem_of_singleton in Hin. injection Hin as -> ->.
        exists new1, err. repeat split; try assumption; try reflexivity.
        apply Forall_app; split; [exact Hnu | repeat constructor]. }
  (* the smoke test passed *)
  destruct (publish_emits options
              ((t0 ++ new1) ++ [Called (AgdaTest (testBin H options) (testData H options)) true]))
    as (r2 & new2 & -> & Hpub).
  exists r2, (new1 ++ Called (AgdaTest (testBin H options) (testData H options)) true :: new2).
  split; [now rewrite <- !app_assoc|]. split.
  - intros pre e post E Hup.
    exact (first_after is_upload _ _ _ _ _ _ E Hnu eq_refl Hup).
  - intros bin data Hin. exfalso.
    apply elem_of_app in Hin as [Hin|Hin].
    + rewrite Forall_forall in Hnt. now specialize (Hnt _ Hin).
    + apply elem_of_cons in Hin as [Hin|Hin]; [discriminate Hin|].
      rewrite Forall_forall in Hpub. now specialize (Hpub _ Hin).
Qed.


Lemma compress_attempts_none new :
  Forall (fun e => compress_attempt e = None) new -> compress_attempts new = [].
Proof.
  unfold compress_attempts. induction 1 as [|e new He _ IH]; [reflexivity|].
  cbn. now rewrite He, IH.
Qed.

(** Listing the needed libraries never throws and compresses nothing. *)
Lemma printNeededLibs_quiet binPath t :
  exists new,
    printNeededLibs H W binPath t = (Ok tt, t ++ new) /\
    compress_attempts new = [].
Proof.
  unfold printNeededLibs, try_catch, bind, call, log.
  destruct (os H);
    match goal with
    | |- context [is_ok ?x] => destruct x as [out|err]
    end; cbn [is_ok];
    rewrite <- app_assoc; eexists; (split; [reflexivity|]); reflexivity.
Qed.

(** One executable: exactly one attempt, and it decides the outcome; a
    failure is the answer of UPX and the last thing that happens. *)
Lemma compressBin_attempt upxExe binPath t :
  exists r new,
    compressBin H W upxExe binPath t = (r, t ++ new) /\
    compress_attempts new = [(binPath, is_ok r)] /\
    (forall err, r = Throw err ->
       exists pre,
         new = pre ++ [Called (GetOutput upxExe ["--best"; binPath]) false] /\
         compress_attempts pre = [] /\
         util_getOutput W upxExe ["--best"; binPath] (t ++ pre) = Throw err).
Proof.
  unfold compressBin. unfold bind at 1.
  destruct (printNeededLibs_quiet binPath t) as (new1 & -> & Hn1).
  unfold bind at 1, call at 1.
  destruct (util_getOutput W upxExe ["--best"; binPath] (t ++ new1))
    as [out|err] eqn:Hupx; cbn [is_ok].
  - destruct (printNeededLibs_quiet binPath
                ((t ++ new1) ++ [Called (GetOutput upxExe ["--best"; binPath]) true]))
      as (new2 & -> & Hn2).
    exists (Ok tt), (new1 ++ Called (GetOutput upxExe ["--best"; binPath]) true :: new2).
    split; [now rewrite <- !app_assoc|]. split; [|discriminate].
    rewrite compress_attempts_app, Hn1.
    change (Called ?c ?b :: new2) with ([Called c b] ++ new2).
    rewrite compress_attempts_app, Hn2. reflexivity.
  - exists (Throw err), (new1 ++ [Called (GetOutput upxExe ["--best"; binPath]) false]).
    split; [now rewrite <- !app_assoc|]. split.
    + rewrite compress_attempts_app, Hn1. reflexivity.
    + intros err' [= <-]. now exists new1.
Qed.

(** The loop over the executables stops at the first failure. *)
Lemma compress_loop upxExe bdistDir bins t :
  exists r new,
    for_each bins (fun binName => compressBin H W upxExe (binPathIn H bdistDir binName)) t
      = (r, t ++ new) /\
    match r with
    | Ok _ =>
        compress_attempts new = map (fun b => (binPathIn H bdistDir b, true)) bins
    | Throw err =>
        exists l1 b l2 pre,
          bins = l1 ++ b :: l2 /\
          new = pre ++ [Called (GetOutput upxExe ["--best"; binPathIn H bdistDir b]) false] /\
          compress_attempts pre = map (fun b => (binPathIn H bdistDir b, true)) l1 /\
          util_getOutput W upxExe ["--best"; binPathIn H bdistDir b] (t ++ pre) = Throw err
    end.
Proof.
  revert t. induction bins as [|b bins IH]; intros t.
  - exists (Ok tt), []. split; [now rewrite app_nil_r | reflexivity].
  - cbn [for_each]. unfold bind.
    destruct (compressBin_attempt upxExe (binPathIn H bdistDir b) t)
      as (r & new & -> & Hn & Hfail).
    destruct r as [[]|err]; cbn [is_ok] in Hn.
    + destruct (IH (t ++ new)) as (r' & new' & -> & Hn').
      exists r', (new ++ new'). split; [now rewrite app_assoc|].
      destruct r' as [[]|err'].
      * now rewrite compress_attempts_app, Hn, Hn'.
      * destruct Hn' as (l1 & b' & l2 & pre & -> & -> & Hpre & Hupx).
        exists (b :: l1), b', l2, (new ++ pre).
        split; [reflexivity|]. split; [now rewrite app_assoc|]. split.
        -- now rewrite compress_attempts_app, Hn, Hpre.
        -- now rewrite app_assoc.
    + destruct (Hfail err eq_refl) as (pre & -> & Hpre & Hupx).
      exists (Throw err), (pre ++ [Called (GetOutput upxExe ["--best"; binPathIn H bdistDir b]) false]).
      split; [reflexivity|]. now exists [], b, bins, pre.
Qed.

(** The compression block never throws, and it stops at the first
    failure.  Either compression is off and nothing happens; or UPX
    cannot be set up, which is logged at debug level, and nothing is
    attempted; or every executable is compressed; or the executables up
    to some [b] are compressed in order, UPX fails on [b], and the block
    ends there by logging that error at debug level, so nothing after
    [b] is attempted. *)
Lemma compressBinaries_tolerant bdistDir options t0 :
  exists new,
    compressBinaries H W bdistDir options t0 = (Ok tt, t0 ++ new) /\
    (shouldCompressExe H options = false /\ new = []
     \/
     shouldCompressExe H options = true /\
     (exists err,
        setupUpx W options t0 = Throw err /\
        new = [Called SetupUpx false; Log debug (message err)])
     \/
     shouldCompressExe H options = true /\
     (exists upxExe rest,
        setupUpx W options t0 = Ok upxExe /\
        new = Called SetupUpx true :: rest /\
        compress_attempts rest =
          map (fun b => (binPathIn H bdistDir b, true)) (agdaBinNames H))
     \/
     shouldCompressExe H options = true /\
     exists upxExe l1 b l2 pre err,
       setupUpx W options t0 = Ok upxExe /\
       agdaBinNames H = l1 ++ b :: l2 /\
       new = Called SetupUpx true :: pre
             ++ [Called (GetOutput upxExe ["--best"; binPathIn H bdistDir b]) false;
                 Log debug (message err)] /\
       compress_attempts pre = map (fun b => (binPathIn H bdistDir b, true)) l1 /\
       util_getOutput W upxExe ["--best"; binPathIn H bdistDir b]
         (t0 ++ Called SetupUpx true :: pre) = Throw err).
Proof.
  unfold compressBinaries, when.
  destruct (shouldCompressExe H options) eqn:Hwant.
  2:{ exists []. split; [unfold ret; now rewrite app_nil_r|]. left. auto. }
  unfold try_catch, bind at 1, call at 1.
  destruct (setupUpx W options t0) as [upxExe|err] eqn:Hsetup; cbn [is_ok].
  2:{ exists [Called SetupUpx false; Log debug (message err)].
      unfold log. rewrite <- app_assoc. split; [reflexivity|].
      right. left. split; [reflexivity|]. now exists err. }
  destruct (compress_loop upxExe bdistDir (agdaBinNames H) (t0 ++ [Called SetupUpx true]))
    as (r & new & Hrun & Hn).
  unfold binPathIn in Hrun. rewrite Hrun.
  destruct r as [[]|err].
  - exists (Called SetupUpx true :: new). split; [now rewrite <- app_assoc|].
    right. right. left. split; [reflexivity|]. now exists upxExe, new.
  - destruct Hn as (l1 & b & l2 & pre & Hbins & -> & Hatt & Hupx).
    exists (Called SetupUpx true :: pre
            ++ [Called (GetOutput upxExe ["--best"; binPathIn H bdistDir b]) false;
                Log debug (message err)]).
    unfold log. split.
    { rewrite <- !app_assoc. reflexivity. }
    right. right. right. split; [reflexivity|].
    exists upxExe, l1, b, l2, pre, err.
    rewrite <- app_assoc in Hupx. repeat split; assumption.
Qed.


Lemma compressBinaries_strict bdistDir options :
  strict (compressBinaries H W bdistDir options).
Proof.
  intros t. destruct (compressBinaries_tolerant bdistDir options t) as (new & -> & _).
  exists (Ok tt), new. split; [reflexivity | discriminate].
Qed.

(** When [upload] throws, a call outside compression has just failed. *)
Lemma upload_strict installDir options : strict (upload H W installDir options).
Proof.
  unfold upload. cbv zeta.
  repeat first
    [ apply compressBinaries_strict
    | apply strict_bind; [|intros ?]
    | apply strict_for_each; intros ?
    | apply strict_when
    | apply strict_call; reflexivity
    | apply strict_start | apply strict_log | apply strict_ret ].
Qed.

(** C3 (amended): compression failures are never fatal, and the first one
    ends compression.  The compression block of [upload] always returns
    normally, in one of four ways: compression is off and nothing
    happens; or UPX cannot be set up, the error is logged at debug level
    and nothing is attempted; or UPX is set up and every executable is
    compressed; or UPX is set up, the executables before some [b] are
    compressed in order, UPX fails on [b], and the block ends right
    there with that error logged at debug level, so [b] and all the
    executables after it are left uncompressed.  And [upload] as a whole
    only throws right after a failed call that does not belong to
    compression. *)
Theorem compression_failure_not_fatal installDir bdistDir options t0 :
  (exists new,
     compressBinaries H W bdistDir options t0 = (Ok tt, t0 ++ new) /\
     (shouldCompressExe H options = false /\ new = []
      \/
      shouldCompressExe H options = true /\
      (exists err,
         setupUpx W options t0 = Throw err /\
         new = [Called SetupUpx false; Log debug (message err)])
      \/
      shouldCompressExe H options = true /\
      (exists upxExe rest,
         setupUpx W options t0 = Ok upxExe /\
         new = Called SetupUpx true :: rest /\
         compress_attempts rest =
           map (fun b => (binPathIn H bdistDir b, true)) (agdaBinNames H))
      \/
      shouldCompressExe H options = true /\
      exists upxExe l1 b l2 pre err,
        setupUpx W options t0 = Ok upxExe /\
        agdaBinNames H = l1 ++ b :: l2 /\
        new = Called SetupUpx true :: pre
              ++ [Called (GetOutput upxExe ["--best"; binPathIn H bdistDir b]) false;
                  Log debug (message err)] /\
        compress_attempts pre = map (fun b => (binPathIn H bdistDir b, true)) l1 /\
        util_getOutput W upxExe ["--best"; binPathIn H bdistDir b]
          (t0 ++ Called SetupUpx true :: pre) = Throw err)) /\
  strict (upload H W installDir options).
Proof.
  split; [apply compressBinaries_tolerant | apply upload_strict].
Qed.

(** Listing the needed libraries: one inspection and one log line. *)
Lemma printNeededLibs_run binPath t :
  exists ok msg,
    printNeededLibs H W binPath t
    = (Ok tt, t ++ [Called (inspector H binPath) ok;
                    Log (if ok then info else debug) msg]).
Proof.
  unfold printNeededLibs, inspector, try_catch, bind, call, log.
  destruct (os H);
    match goal with
    | |- context [is_ok ?x] => destruct x as [out|err]
    end; cbn [is_ok]; rewrite <- app_assoc; cbn [app];
    [exists true | exists false | exists true | exists false
    | exists true | exists false]; eexists; reflexivity.
Qed.

(** The assembly phase is made of assembly entries only. *)
Lemma assemble_entries installDir options :
  emits (fun e => assembly_entry e = true) (assemble H W installDir options).
Proof.
  assert (Hp : forall binPath,
            emits (fun e => assembly_entry e = true) (printNeededLibs H W binPath)).
  { intros binPath t. destruct (printNeededLibs_run binPath t) as (ok & msg & ->).
    eexists _, _. split; [reflexivity|]. unfold inspector.
    destruct (os H), ok; repeat constructor. }
  unfold assemble, compressBinaries, compressBin. cbv zeta.
  repeat first
    [ apply Hp
    | match goal with |- forall _, _ => intro end
    | apply emits_bind | apply emits_try_catch | apply emits_for_each
    | apply emits_when | apply emits_ret | apply emits_log
    | apply emits_start | apply emits_call
    | reflexivity ].
Qed.

(** The loop of copies, when it returns normally, has copied every
    executable, in order. *)
Lemma copy_loop_ok installDir bdistDir bins t t' :
  for_each bins (fun binName =>
    call (Cp (path_join H [installDir; "bin"; binName])
             (path_join H [bdistDir; "bin"; binName]))
         (util_cp W (path_join H [installDir; "bin"; binName])
                    (path_join H [bdistDir; "bin"; binName]))) t = (Ok tt, t') ->
  t' = t ++ map (fun binName =>
                   Called (Cp (path_join H [installDir; "bin"; binName])
                              (path_join H [bdistDir; "bin"; binName])) true) bins.
Proof.
  revert t. induction bins as [|b bins IH]; intros t; cbn [for_each map].
  - intros [= <-]. now rewrite app_nil_r.
  - intros E. apply bind_ok_inv in E as ([] & t1 & Hc & E).
    apply call_ok_inv in Hc as [_ ->].
    apply IH in E. rewrite E, <- app_assoc. reflexivity.
Qed.

(** An assembly that returns normally is complete. *)
Lemma assemble_ok installDir options t0 t' :
  assemble H W installDir options t0 = (Ok tt, t') ->
  exists asm, t' = t0 ++ asm /\ assembled H W installDir options t0 asm.
Proof.
  unfold assemble. cbv zeta. fold (bdistDirOf H options).
  intros E.
  apply bind_ok_inv in E as ([] & t1 & E1 & E). injection E1 as <-.
  apply bind_ok_inv in E as ([] & t2 & E2 & E). injection E2 as <-.
  apply bind_ok_inv in E as ([] & t3 & E3 & E). apply copy_loop_ok in E3. subst t3.
  apply bind_ok_inv in E as ([] & t4 & E4 & E). apply call_ok_inv in E4 as [_ ->].
  apply bind_ok_inv in E as ([] & t5 & E5 & E).
  assert (Ht : (((t0 ++ [Started (MkdirP (bdistDirOf H options))])
                 ++ [Started (MkdirP (path_join H [bdistDirOf H options; "bin"]))])
                ++ map (fun binName =>
                     Called (Cp (path_join H [installDir; "bin"; binName])
                                (path_join H [bdistDirOf H options; "bin"; binName])) true)
                     (agdaBinNames H))
               ++ [Called (CpR (path_join H [installDir; "data"]) (bdistDirOf H options)) true]
               = t0 ++ copied H installDir options).
  { unfold copied. rewrite <- !app_assoc. reflexivity. }
  rewrite Ht in E5.
  destruct (compressBinaries_tolerant (bdistDirOf H options) options
              (t0 ++ copied H installDir options)) as (cmp & Hc & _).
  rewrite Hc in E5. injection E5 as <-.
  exists (copied H installDir options ++ cmp ++ bundled H options).
  split; [|exists cmp; split; [exact Hc | reflexivity]].
  unfold when, bundled in *.
  destruct (icu_version options) as [v|].
  - rewrite bool_decide_eq_true_2 in E by discriminate.
    apply call_ok_inv in E as [_ ->]. now rewrite <- !app_assoc.
  - rewrite bool_decide_eq_false_2 in E by (intros Hne; now apply Hne).
    injection E as <-. now rewrite app_nil_r, <- !app_assoc.
Qed.

(** When the assembly throws, a call outside compression has just
    failed. *)
Lemma assemble_strict installDir options : strict (assemble H W installDir options).
Proof.
  unfold assemble. cbv zeta.
  repeat first
    [ apply compressBinaries_strict
    | apply strict_bind; [|intros ?]
    | apply strict_for_each; intros ?
    | apply strict_when
    | apply strict_call; reflexivity
    | apply strict_start | apply strict_log | apply strict_ret ].
Qed.

(** The publishing phase neither assembles nor tests. *)
Lemma publish_entries options :
  emits (fun e => assembly_entry e = false /\ is_test e = false) (publish H W options).
Proof. unfold publish. emits_tac. Qed.

(** C8: in [upload] the smoke test of the assembled distribution comes
    before publication, and a failed smoke test aborts it.  Whatever the
    collaborators answer, the trace of [upload] starts with a part [asm]
    made of assembly entries only (no smoke test, no call of the
    artifact client), and one of three things happens.  The assembly
    fails: [upload] throws right after a failed call outside compression
    and nothing else happens.  Or the assembly is complete (every
    executable and the data directory copied, the compression block run,
    ICU bundled when a version is set), the smoke test is then run on
    the executable and the data directory of the distribution and
    throws: [upload] throws that error and the failed test is the last
    thing that happens, so the artifact client is never called.  Or the
    assembly is complete, the smoke test then passes, and only after it
    the publishing phase runs (globbing and the artifact client) and
    decides the outcome. *)
Theorem upload_tests_before_publishing installDir options t0 :
  exists r new asm,
    upload H W installDir options t0 = (r, t0 ++ new) /\
    Forall (fun e => assembly_entry e = true) asm /\
    ((exists err c,
        r = Throw err /\ new = asm /\
        last asm = Some (Called c false) /\ is_compression_call c = false)
     \/
     (exists err,
        assembled H W installDir options t0 asm /\
        util_agdaTest W (testBin H options) (testData H options) (t0 ++ asm) = Throw err /\
        r = Throw err /\
        new = asm ++ [Called (AgdaTest (testBin H options) (testData H options)) false])
     \/
     (exists pub,
        assembled H W installDir options t0 asm /\
        util_agdaTest W (testBin H options) (testData H options) (t0 ++ asm) = Ok tt /\
        publish H W options
          (t0 ++ asm ++ [Called (AgdaTest (testBin H options) (testData H options)) true])
        = (r, (t0 ++ asm ++ [Called (AgdaTest (testBin H options) (testData H options)) true])
              ++ pub) /\
        new = asm ++ Called (AgdaTest (testBin H options) (testData H options)) true :: pub /\
        Forall (fun e => assembly_entry e = false /\ is_test e = false) pub)).
Proof.
  rewrite upload_phases. unfold bind at 1.
  destruct (assemble_entries installDir options t0) as (r1 & asm & Easm & Hasm).
  destruct (assemble_strict installDir options t0) as (r1' & asm' & Easm' & Hstrict).
  rewrite Easm in Easm'. injection Easm' as <- Easm'. apply app_inv_head in Easm'. subst asm'.
  rewrite Easm.
  destruct r1 as [[]|e1].
  2:{ destruct (Hstrict e1 eq_refl) as (c & Hl & Hc).
      exists (Throw e1), asm, asm. split; [reflexivity|]. split; [exact Hasm|].
      left. now exists e1, c. }
  destruct (assemble_ok installDir options t0 _ Easm) as (asm' & Easm' & Hdone).
  apply app_inv_head in Easm'. subst asm'.
  unfold bind at 1, call at 1.
  destruct (util_agdaTest W (testBin H options) (testData H options) (t0 ++ asm))
    as [[]|err] eqn:Htest; cbn [is_ok].
  2:{ exists (Throw err),
        (asm ++ [Called (AgdaTest (testBin H options) (testData H options)) false]), asm.
      split; [now rewrite app_assoc|]. split; [exact Hasm|].
      right. left. now exists err. }
  destruct (publish_entries options
              ((t0 ++ asm) ++ [Called (AgdaTest (testBin H options) (testData H options)) true]))
    as (r2 & pub & Epub & Hpub).
  rewrite Epub.
  exists r2, (asm ++ Called (AgdaTest (testBin H options) (testData H options)) true :: pub), asm.
  split; [now rewrite <- !app_assoc|]. split; [exact Hasm|].
  right. right. exists pub. split; [exact Hdone|]. split; [exact Htest|].
  split; [|split; [reflexivity | exact Hpub]].
  rewrite !app_assoc. exact Epub.
Qed.

End pipeline.

(** *** The pipeline on the sample host *)

(** The network is down: the index lists the distribution, the fetch
    throws, and [download] answers [null]. *)
Lemma download_degrades_witness :
  fst (download Samples.host Samples.world (Samples.options "2.6.4" "latest") [])
  = Ok None.
Proof.
  destruct (download_degrades Samples.host Samples.world
              (Samples.options "2.6.4" "latest") [])
    as (v & new & E & _ & Hfail & _).
  rewrite E. cbn [fst]. f_equal.
  apply (Hfail "https://example.org/agda-2.6.4.zip").
  vm_compute in E. injection E as _ <-. right. right. left.
Defined.

(** UPX fails on the first executable; the compression block still
    returns normally. *)
Lemma compression_failure_not_fatal_witness :
  fst (compressBinaries Samples.host Samples.world
         "/home/runner/.agda/bdist/agda-2.6.4-x64-linux"
         (Samples.compressing (Samples.named (Samples.options "2.6.4" "latest"))) [])
  = Ok tt.
Proof.
  destruct (proj1 (compression_failure_not_fatal Samples.host Samples.world
                     "/tmp/install"
                     "/home/runner/.agda/bdist/agda-2.6.4-x64-linux"
                     (Samples.compressing
                        (Samples.named (Samples.options "2.6.4" "latest"))) []))
    as (new & E & _).
  rewrite E. reflexivity.
Defined.

(** C3, as stated, fails: with two executables, the distribution named
    by the default template and UPX failing on the first executable,
    [upload] succeeds, yet the only compression attempt is the failed
    one; the remaining executable [agda-mode] is never attempted. *)
Lemma upload_skips_remaining_executables :
  let options :=
    Samples.compressing (Samples.named (Samples.options "2.6.4" "latest")) in
  let outcome := upload Samples.host Samples.world "/tmp/install" options [] in
  agdaBinNames Samples.host = ["agda"; "agda-mode"] /\
  renderName Samples.host (bdist_name options) options = "agda-2.6.4-x64-linux" /\
  is_ok (fst outcome) = true /\
  compress_attempts (snd outcome) =
    [("/home/runner/.agda/bdist/agda-2.6.4-x64-linux/bin/agda", false)] /\
  ~ exists ok,
      (binPathIn Samples.host "/home/runner/.agda/bdist/agda-2.6.4-x64-linux"
         "agda-mode", ok) ∈ compress_attempts (snd outcome).
Proof.
  cbv zeta. split; [reflexivity|]. split; [vm_compute; reflexivity|].
  split; [vm_compute; reflexivity|]. split; [vm_compute; reflexivity|].
  intros [ok Hin]. vm_compute in Hin.
  apply list_elem_of_singleton in Hin. discriminate Hin.
Qed.

(** A failed smoke test: [upload] throws the test's error right after
    the test, and the trace holds no call of the artifact client. *)
Lemma upload_tests_before_publishing_witness :
  let outcome := upload Samples.host Samples.world_broken "/tmp/install"
                   (Samples.named (Samples.options "2.6.4" "latest")) [] in
  fst outcome = Throw (MkError "agda: exit code 1") /\
  last (snd outcome)
  = Some (Called (AgdaTest "/home/runner/.agda/bdist/agda-2.6.4-x64-linux/bin/agda"
                           "/home/runner/.agda/bdist/agda-2.6.4-x64-linux/data") false) /\
  Forall (fun e => is_upload e = false) (snd outcome).
Proof.
  cbv zeta.
  destruct (upload_tests_before_publishing Samples.host Samples.world_broken
              "/tmp/install" (Samples.named (Samples.options "2.6.4" "latest")) [])
    as (r & new & asm & E & _ & _).
  rewrite E. cbn [fst snd app].
  vm_compute in E. injection E as <- <-.
  split; [reflexivity|]. split; [reflexivity|]. repeat constructor.
Defined.

(** With every collaborator but UPX succeeding, the distribution is
    published under its rendered name. *)
Example upload_sample :
  fst (upload Samples.host Samples.world "/tmp/install"
         (Samples.compressing (Samples.named (Samples.options "2.6.4" "latest"))) [])
  = Ok "agda-2.6.4-x64-linux".
Proof. vm_compute. reflexivity. Qed.

End bdist_facts.

(** * Further properties *)

(** ** Option resolution: invariants and edge cases *)

Module getOptions_more.
Import opts getOptions_facts.

Lemma filter_no_ws_drop_ws l :
  List.filter JS.no_ws (JS.drop_ws l) = List.filter JS.no_ws l.
Proof.
  induction l as [|c l IH]; [reflexivity|].
  cbn [JS.drop_ws List.filter]. unfold JS.no_ws at 2.
  destruct (JS.is_ws c) eqn:E; [exact IH|].
  cbn [List.filter]. unfold JS.no_ws at 1. now rewrite E.
Qed.

Lemma filter_no_ws_rev l :
  List.filter JS.no_ws (rev l) = rev (List.filter JS.no_ws l).
Proof.
  induction l as [|c l IH]; [reflexivity|].
  cbn [rev List.filter]. rewrite List.filter_app, IH. cbn [List.filter].
  destruct (JS.no_ws c); cbn [rev]; [reflexivity | now rewrite app_nil_r].
Qed.

(** Trimming removes white space only. *)
Lemma filter_no_ws_trim_list l :
  List.filter JS.no_ws (JS.trim_list l) = List.filter JS.no_ws l.
Proof.
  unfold JS.trim_list.
  rewrite filter_no_ws_rev, filter_no_ws_drop_ws, filter_no_ws_rev,
    rev_involutive.
  apply filter_no_ws_drop_ws.
Qed.

Section resolver.
Variable spec : gmap string (option string).
Variable vr : string -> option string.
Variable mp : string -> option Error.
Variable eol : string.

(** X1: what a successful resolution guarantees.  The resolved options
    never carry the Agda version "nightly", their GHC version is
    "latest", their GHC range is one [semver.validRange] accepts, the two
    force flags are not both set, the three lists are empty and the
    optional fields are absent. *)
Theorem getOptions_resolved_invariant inputs o :
  getOptions spec vr mp eol inputs = Ok o ->
  agda_version o <> "nightly" /\
  ghc_version o = "latest" /\
  (exists r, vr (ghc_version_range o) = Some r /\ r <> "") /\
  (force_build o = false \/ force_no_build o = false) /\
  extra_include_dirs o = [] /\ extra_lib_dirs o = [] /\
  ghc_supported_versions o = [] /\
  icu_version o = None /\ package_info_cache o = None /\ upx_version o = None.
Proof.
  intros Hrun.
  destruct (getOptions_Ok_inv spec vr mp eol inputs o Hrun)
    as (_ & _ & (Hx1 & Hx2 & Hx3 & Hx4 & Hx5 & Hx6)
        & (Hnightly & Hghc & Hrange & Hforce) & _).
  split; [exact Hnightly|]. split; [exact Hghc|]. split.
  - unfold invalidRange in Hrange.
    destruct (vr (ghc_version_range o)) as [[|c r]|]; try discriminate.
    now exists (String c r).
  - split; [now apply andb_false_iff|]. tauto.
Qed.

(** X2: the resolved ['bdist-name'] holds no white space at all; when the
    name was given as a string, it is that string with every white-space
    character removed; and it is a template Mustache parses (or it is
    empty and the default template parses). *)
Theorem getOptions_bdist_name inputs o :
  getOptions spec vr mp eol inputs = Ok o ->
  Forall (fun c => JS.is_ws c = false) (list_ascii_of_string (bdist_name o)) /\
  (forall s, maybeInput inputs "bdist-name" = RString s ->
     list_ascii_of_string (bdist_name o)
     = List.filter JS.no_ws (list_ascii_of_string s)) /\
  (mp (bdist_name o) = None \/
   bdist_name o = "" /\ mp bdistNameDefaultTemplate = None).
Proof.
  intros Hrun.
  destruct (getOptions_Ok_inv spec vr mp eol inputs o Hrun)
    as (_ & _ & _ & _ & n & Hn & Hname).
  assert (Hchars : list_ascii_of_string (bdist_name o)
                   = List.filter JS.no_ws (list_ascii_of_string n)).
  { destruct Hname as [(-> & -> & _)|(_ & -> & _)];
      [reflexivity | apply normalizeName_chars]. }
  split; [|split].
  - rewrite Hchars. eapply Forall_impl; [apply JS_facts.filter_no_ws_Forall|].
    intros c Hc. unfold JS.no_ws in Hc. now apply negb_true_iff in Hc.
  - intros s Hs. rewrite Hchars.
    unfold getOption in Hn. change (option_name bdist_name_opt) with "bdist-name" in Hn.
    rewrite Hs in Hn. injection Hn as <-.
    unfold JS.trim. rewrite list_ascii_of_string_of_list_ascii.
    apply filter_no_ws_trim_list.
  - destruct Hname as [(_ & Hb & Hmp)|(_ & Hb & Hmp)]; [right; auto|].
    left. now rewrite Hb.
Qed.

(** X3: for every declared option but ['bdist-name'], a string input is
    resolved to its trimmed value, also when that is empty and a default
    is declared; only an absent input falls back to the declared default,
    and to the empty string when there is none. *)
Theorem getOptions_option_values inputs o k :
  getOptions spec vr mp eol inputs = Ok o ->
  k <> bdist_name_opt ->
  (forall s, maybeInput inputs (option_name k) = RString s ->
     option_value k o = JS.trim s) /\
  (maybeInput inputs (option_name k) = RUndefined ->
     option_value k o = match spec !! option_name k with
                        | Some (Some d) => d
                        | _ => ""
                        end).
Proof.
  intros Hrun Hk.
  destruct (getOptions_Ok_inv spec vr mp eol inputs o Hrun) as (_ & Hopts & _).
  specialize (Hopts k Hk). unfold getOption in Hopts.
  split.
  - intros s Hs. rewrite Hs in Hopts. now injection Hopts.
  - intros Hu. rewrite Hu in Hopts. now injection Hopts.
Qed.

(** X4: inputs that set both ['force-build'] and ['force-no-build'] never
    resolve, whatever else they hold. *)
Theorem getOptions_rejects_conflict inputs :
  getFlag inputs force_build_flag = true ->
  getFlag inputs force_no_build_flag = true ->
  is_ok (getOptions spec vr mp eol inputs) = false.
Proof.
  intros Hb Hnb.
  destruct (getOptions spec vr mp eol inputs) as [o|e] eqn:Hrun; [|reflexivity].
  destruct (getOptions_Ok_inv spec vr mp eol inputs o Hrun)
    as (Hflags & _ & _ & (_ & _ & _ & Hforce) & _).
  pose proof (Hflags force_build_flag) as H1.
  pose proof (Hflags force_no_build_flag) as H2. cbn in H1, H2.
  rewrite H1, H2, Hb, Hnb in Hforce. discriminate Hforce.
Qed.

(** X5: resolution reads the six declared options and the ten declared
    flags and nothing else: inputs that agree on them resolve alike,
    errors included. *)
Theorem getOptions_ignores_undeclared inputs1 inputs2 :
  (forall k, maybeInput inputs1 (option_name k) = maybeInput inputs2 (option_name k)) ->
  (forall k, maybeInput inputs1 (flag_name k) = maybeInput inputs2 (flag_name k)) ->
  getOptions spec vr mp eol inputs1 = getOptions spec vr mp eol inputs2.
Proof.
  intros Ho Hf. unfold getOptions, getOption, getFlag.
  rewrite !Ho, !Hf. reflexivity.
Qed.

End resolver.

Lemma getOptions_resolved_invariant_witness :
  ghc_version Samples.resolved = "latest" /\
  agda_version Samples.resolved <> "nightly".
Proof.
  destruct (getOptions_resolved_invariant Samples.inputSpec Samples.validRange
              Samples.parseTemplate Samples.LF Samples.inputs Samples.resolved)
    as (Hn & Hg & _); [vm_compute; reflexivity | auto].
Defined.

Lemma getOptions_bdist_name_witness :
  list_ascii_of_string (bdist_name Samples.resolved)
  = List.filter JS.no_ws (list_ascii_of_string " agda - {{{agda-version}}} ").
Proof.
  apply (proj1 (proj2 (getOptions_bdist_name Samples.inputSpec Samples.validRange
                         Samples.parseTemplate Samples.LF Samples.inputs
                         Samples.resolved ltac:(vm_compute; reflexivity)))).
  vm_compute. reflexivity.
Defined.

Lemma getOptions_option_values_witness :
  option_value agda_version_opt Samples.resolved = JS.trim " 2.6.4 " /\
  option_value ghc_version_opt Samples.resolved = "latest".
Proof.
  split.
  - apply (proj1 (getOptions_option_values Samples.inputSpec Samples.validRange
                    Samples.parseTemplate Samples.LF Samples.inputs
                    Samples.resolved agda_version_opt
                    ltac:(vm_compute; reflexivity) ltac:(discriminate))).
    vm_compute. reflexivity.
  - rewrite (proj2 (getOptions_option_values Samples.inputSpec Samples.validRange
                      Samples.parseTemplate Samples.LF Samples.inputs
                      Samples.resolved ghc_version_opt
                      ltac:(vm_compute; reflexivity) ltac:(discriminate)));
      vm_compute; reflexivity.
Defined.

Lemma getOptions_rejects_conflict_witness :
  is_ok (getOptions Samples.inputSpec Samples.validRange Samples.parseTemplate
           Samples.LF Samples.inputs_conflict) = false.
Proof.
  apply getOptions_rejects_conflict; vm_compute; reflexivity.
Defined.

Lemma getOptions_ignores_undeclared_witness :
  getOptions Samples.inputSpec Samples.validRange Samples.parseTemplate
    Samples.LF Samples.inputs_extra
  = getOptions Samples.inputSpec Samples.validRange Samples.parseTemplate
      Samples.LF Samples.inputs.
Proof.
  apply getOptions_ignores_undeclared; intros []; vm_compute; reflexivity.
Defined.

End getOptions_more.

(** ** Rules, ICU resolution and GHC version matching *)

Module rules_more.
Import opts icu.

(** X6: whenever cluster counting is supported, heavy optimisation is
    supported too and the ICU version resolved for the options is 71.1,
    never 67.1. *)
Theorem supportsClusterCounting_implies options :
  supportsClusterCounting options = true ->
  supportsOptimiseHeavily options = true /\
  icu_version (resolveIcuVersion options) = Some "71.1".
Proof.
  unfold supportsClusterCounting, supportsOptimiseHeavily, resolveIcuVersion.
  rewrite !andb_true_iff. intros (_ & H262). now rewrite H262.
Qed.

(** X7: resolving the ICU version twice is resolving it once, and it
    leaves the cluster-counting decision as it was. *)
Theorem resolveIcuVersion_idempotent options :
  resolveIcuVersion (resolveIcuVersion options) = resolveIcuVersion options /\
  supportsClusterCounting (resolveIcuVersion options)
  = supportsClusterCounting options.
Proof.
  unfold resolveIcuVersion, supportsClusterCounting.
  destruct (simver.gte (agda_version options) "2.6.2") eqn:H262;
    [|destruct (simver.gte (agda_version options) "2.5.3") eqn:H253];
    cbn [set_icu_version agda_version disable_cluster_counting enable_stack];
    rewrite ?H262, ?H253; split; reflexivity.
Qed.

Section ghcVersionMatch.
Variable semver_parse : string -> option SemVer.

(** The answer in the loose mode. *)
Lemma loose_match options v1 v2 :
  ghc_version_match_exact options = false ->
  fst (ghcVersionMatch semver_parse options v1 v2) = true <->
  exists sv1 sv2,
    semver_parse v1 = Some sv1 /\ semver_parse v2 = Some sv2 /\
    major sv1 = major sv2 /\ minor sv1 = minor sv2.
Proof.
  intros He. unfold ghcVersionMatch. rewrite He.
  destruct (semver_parse v1) as [sv1|], (semver_parse v2) as [sv2|]; cbn [fst].
  - rewrite andb_true_iff, !N.eqb_eq. split.
    + intros [? ?]. now exists sv1, sv2.
    + intros (? & ? & [= <-] & [= <-] & ? & ?). auto.
  - split; [discriminate | intros (? & ? & _ & [=] & _)].
  - split; [discriminate | intros (? & ? & [=] & _)].
  - split; [discriminate | intros (? & ? & [=] & _)].
Qed.

(** X8: [ghcVersionMatch] is symmetric and transitive in both modes; a
    version matches itself exactly when the match is exact or the version
    parses; and a warning is only issued in the loose mode, with the
    answer [false]. *)
Theorem ghcVersionMatch_partial_equivalence options v1 v2 v3 :
  (fst (ghcVersionMatch semver_parse options v1 v2)
   = fst (ghcVersionMatch semver_parse options v2 v1)) /\
  (fst (ghcVersionMatch semver_parse options v1 v2) = true ->
   fst (ghcVersionMatch semver_parse options v2 v3) = true ->
   fst (ghcVersionMatch semver_parse options v1 v3) = true) /\
  (fst (ghcVersionMatch semver_parse options v1 v1) = true <->
   ghc_version_match_exact options = true \/ is_Some (semver_parse v1)) /\
  (snd (ghcVersionMatch semver_parse options v1 v2) <> [] ->
   ghc_version_match_exact options = false /\
   fst (ghcVersionMatch semver_parse options v1 v2) = false).
Proof.
  destruct (ghc_version_match_exact options) eqn:He.
  - unfold ghcVersionMatch. rewrite He. cbn [fst snd]. repeat split.
    + apply String.eqb_sym.
    + rewrite !String.eqb_eq. congruence.
    + auto.
    + intros _. apply String.eqb_refl.
    + congruence.
    + congruence.
  - split; [|split; [|split]].
    + apply eq_true_iff_eq. rewrite !(loose_match options _ _ He).
      split; intros (a & b & ? & ? & ? & ?); exists b, a; auto.
    + rewrite !(loose_match options _ _ He).
      intros (a & b & Ha & Hb & ? & ?) (b' & c & Hb' & Hc & ? & ?).
      rewrite Hb in Hb'. injection Hb' as <-.
      exists a, c. repeat split; auto; congruence.
    + rewrite (loose_match options _ _ He). split.
      * intros (a & _ & Ha & _). right. now exists a.
      * intros [[=]|[a Ha]]. now exists a, a.
    + intros Hw. split; [reflexivity|]. revert Hw. unfold ghcVersionMatch. rewrite He.
      destruct (semver_parse v1), (semver_parse v2); cbn [fst snd]; congruence.
Qed.

End ghcVersionMatch.

Lemma supportsClusterCounting_implies_witness :
  icu_version (resolveIcuVersion (Samples.options "2.6.4" "latest")) = Some "71.1".
Proof.
  apply (supportsClusterCounting_implies (Samples.options "2.6.4" "latest")).
  reflexivity.
Defined.

(** 9.2.5 and 9.2.8 match loosely, not exactly. *)
Example ghcVersionMatch_sample :
  fst (ghcVersionMatch Samples.parseSemVer (Samples.options "2.6.4" "latest")
         "9.2.5" "9.2.8") = true /\
  ghcVersionMatch Samples.parseSemVer (Samples.options "2.6.4" "latest")
    "9.2" "9.2.8" = (false, ["Could not parse GHC version 9.2"]).
Proof. split; vm_compute; reflexivity. Qed.

End rules_more.

(** ** The pipeline: names, compression and publication *)

Module bdist_more.
Import opts Eff bdist Eff_facts bdist_facts.
Local Open Scope list_scope.

Lemma split_after {X} (Q : X -> bool) l1 l2 pre e post :
  l1 ++ l2 = pre ++ e :: post ->
  Forall (fun y => Q y = false) l1 -> Q e = true ->
  exists pre', pre = l1 ++ pre' /\ l2 = pre' ++ e :: post.
Proof.
  intros E HF He. revert pre E.
  induction HF as [|y l1 Hy _ IH]; intros pre E.
  - now exists pre.
  - destruct pre as [|p pre]; cbn in E; injection E as <- E; [congruence|].
    destruct (IH pre E) as (pre' & -> & ->). now exists pre'.
Qed.

Lemma halting_of_emits {A} (c : M A) :
  emits (fun e => failed_elsewhere e = false) c -> halting c.
Proof.
  intros Hc t. destruct (Hc t) as (r & new & -> & HF).
  exists r, new. split; [reflexivity|]. split; [auto|].
  intros pre e post -> He. exfalso.
  rewrite Forall_app, Forall_cons in HF. destruct HF as (_ & Hf & _). congruence.
Qed.

Lemma halting_call {A} c (answer : Trace -> Result A) : halting (call c answer).
Proof.
  intros t. exists (answer t), [Called c (is_ok (answer t))].
  split; [reflexivity|]. split.
  - intros ->. repeat constructor.
  - intros [|p pre] e post E He; simplify_eq/=.
    + split; [reflexivity|]. now destruct (is_ok (answer t)).
    + now destruct pre.
Qed.

Lemma halting_bind {A B} (c : M A) (k : A -> M B) :
  halting c -> (forall a, halting (k a)) -> halting (bind c k).
Proof.
  intros Hc Hk t. unfold bind.
  destruct (Hc t) as (r & new & -> & Hok & Hlast). destruct r as [a|e].
  - destruct (Hk a (t ++ new)) as (r' & new' & -> & Hok' & Hlast').
    exists r', (new ++ new'). split; [now rewrite app_assoc|]. split.
    + intros Hr. apply Forall_app. auto.
    + intros pre x post E Hx.
      destruct (split_after failed_elsewhere _ _ _ _ _ E (Hok eq_refl) Hx)
        as (pre' & -> & E').
      exact (Hlast' _ _ _ E' Hx).
  - exists (Throw e), new. split; [reflexivity|]. split; [discriminate|].
    intros pre x post E Hx. destruct (Hlast _ _ _ E Hx) as [-> _]. auto.
Qed.

Lemma halting_for_each {A} (xs : list A) body :
  (forall x, halting (body x)) -> halting (for_each xs body).
Proof.
  intros Hb. induction xs as [|x xs IH]; simpl.
  - apply halting_of_emits, emits_ret.
  - apply halting_bind; [apply Hb | intros _; exact IH].
Qed.

Lemma halting_when b c : halting c -> halting (when b c).
Proof. intros Hc. destruct b; [exact Hc | apply halting_of_emits, emits_ret]. Qed.

Section pipeline.
Variable H : Host.
Variable W : World.

(** X9: the rendered name depends on the options through the six
    version fields only: options that agree on them render every
    template alike, and [download] probes and fetches alike for them. *)
Theorem renderName_versions_only template options options' :
  agda_version options = agda_version options' ->
  ghc_version options = ghc_version options' ->
  cabal_version options = cabal_version options' ->
  stack_version options = stack_version options' ->
  icu_version options = icu_version options' ->
  upx_version options = upx_version options' ->
  renderName H template options = renderName H template options' /\
  (forall t, download H W options t = download H W options' t).
Proof.
  intros Ha Hg Hc Hs Hi Hu.
  assert (Hr : forall tpl, renderName H tpl options = renderName H tpl options').
  { intros tpl. unfold renderName. now rewrite Ha, Hg, Hc, Hs, Hi, Hu. }
  split; [apply Hr|]. intros t. unfold download. now rewrite Hr.
Qed.

(** X10: [compressBin] lists the needed libraries, runs UPX with
    [--best], and lists the libraries again only when UPX succeeded.  A
    listing is one inspection with the tool of the detected OS and one
    log line (info when it succeeded, debug when it failed) and never
    throws; the outcome of [compressBin] is the outcome of UPX. *)
Theorem compressBin_trace upxExe binPath t :
  exists ok1 msg1 (r : Result unit) rest,
    compressBin H W upxExe binPath t
    = (r, t ++ [Called (inspector H binPath) ok1;
                Log (if ok1 then info else debug) msg1;
                Called (GetOutput upxExe ["--best"; binPath]) (is_ok r)]
            ++ rest) /\
    (is_ok r = true ->
       exists ok2 msg2,
         rest = [Called (inspector H binPath) ok2;
                 Log (if ok2 then info else debug) msg2]) /\
    (is_ok r = false -> rest = []).
Proof.
  unfold compressBin. unfold bind at 1.
  destruct (printNeededLibs_run H W binPath t) as (ok1 & msg1 & ->).
  unfold bind at 1, call at 1.
  match goal with |- context [is_ok ?x] => destruct x as [out|err] end; cbn [is_ok].
  - match goal with |- context [printNeededLibs H W binPath ?t'] =>
      destruct (printNeededLibs_run H W binPath t') as (ok2 & msg2 & ->) end.
    exists ok1, msg1, (Ok tt), [Called (inspector H binPath) ok2;
                               Log (if ok2 then info else debug) msg2].
    cbn [is_ok]. rewrite <- !app_assoc. cbn [app].
    split; [reflexivity|]. split; [now exists ok2, msg2 | discriminate].
  - exists ok1, msg1, (Throw err), []. cbn [is_ok].
    rewrite <- !app_assoc. cbn [app].
    split; [reflexivity|]. split; [discriminate | auto].
Qed.

Lemma compressBinaries_halting bdistDir options :
  halting (compressBinaries H W bdistDir options).
Proof.
  apply halting_of_emits.
  assert (Hp : forall binPath,
            emits (fun e => failed_elsewhere e = false) (printNeededLibs H W binPath)).
  { intros binPath t. destruct (printNeededLibs_run H W binPath t) as (ok & msg & ->).
    eexists _, _. split; [reflexivity|]. unfold inspector.
    destruct (os H), ok; repeat constructor. }
  unfold compressBinaries, compressBin.
  repeat first
    [ apply Hp
    | match goal with |- forall _, _ => intro end
    | apply emits_bind | apply emits_try_catch | apply emits_for_each
    | apply emits_when | apply emits_ret | apply emits_log
    | apply emits_call
    | match goal with |- failed_elsewhere (Called _ ?ok) = false =>
        destruct ok; reflexivity end
    | reflexivity ].
Qed.

Lemma upload_halting installDir options : halting (upload H W installDir options).
Proof.
  unfold upload. cbv zeta.
  repeat first
    [ apply compressBinaries_halting
    | apply halting_bind; [|intros ?]
    | apply halting_for_each; intros ?
    | apply halting_when
    | apply halting_call
    | apply halting_of_emits;
      first [apply emits_start | apply emits_log | apply emits_ret]; reflexivity ].
Qed.

(** X11: [upload] fails fast.  It returns normally exactly when no call
    outside compression failed, and a failed call outside compression is
    the last thing it does. *)
Theorem upload_fail_fast installDir options t0 :
  exists r new,
    upload H W installDir options t0 = (r, t0 ++ new) /\
    (is_ok r = true <-> Forall (fun e => failed_elsewhere e = false) new) /\
    (forall pre e post,
       new = pre ++ e :: post -> failed_elsewhere e = true -> post = []).
Proof.
  destruct (upload_halting installDir options t0) as (r & new & E & Hok & Hlast).
  exists r, new. split; [exact E|]. split.
  - split; [exact Hok|]. intros HF.
    destruct (upload_strict H W installDir options t0) as (r' & new' & E' & Hs).
    rewrite E in E'. injection E' as <- E'. apply app_inv_head in E'. subst new'.
    destruct r as [|err]; [reflexivity|]. exfalso.
    destruct (Hs err eq_refl) as (cl & Hl & Hc).
    apply last_Some in Hl as [l' ->].
    rewrite Forall_app, Forall_singleton in HF. destruct HF as [_ HF].
    cbn in HF. rewrite Hc in HF. discriminate HF.
  - intros pre e post E' He. exact (proj1 (Hlast _ _ _ E' He)).
Qed.


Ltac entry_cases Hin :=
  repeat first
    [ apply elem_of_app in Hin as [Hin|Hin]
    | apply elem_of_cons in Hin as [Hin|Hin]
    | apply elem_of_nil in Hin; contradiction ];
  try discriminate Hin.

(** The publishing phase, from any trace. *)
Lemma publish_run options t :
  exists r new,
    publish H W options t = (r, t ++ new) /\
    (published new -> is_ok r = true) /\
    (forall e, e ∈ new -> is_error_line e = true -> published new) /\
    (forall e, e ∈ new -> is_upload e = true ->
       exists files ok,
         e = Called (UploadArtifact (renderName H (bdist_name options) options) files
                       (path_join H [agdaDir H; "bdist";
                                     renderName H (bdist_name options) options])
                       true 90) ok).
Proof.
  unfold publish. cbv zeta. unfold bind at 1, call at 1.
  match goal with |- context [is_ok ?x] => destruct x as [[]|e1] end; cbn [is_ok].
  2:{ eexists _, [_]. split; [reflexivity|]. split; [|split].
      - intros (? & ? & ? & ? & ? & Hin). entry_cases Hin.
      - intros e Hin He. entry_cases Hin. subst. discriminate He.
      - intros e Hin He. entry_cases Hin. subst. discriminate He. }
  unfold bind at 1, call at 1.
  match goal with |- context [is_ok ?x] => destruct x as [files|e2] end; cbn [is_ok].
  2:{ rewrite <- app_assoc. eexists _, [_; _]. split; [reflexivity|]. split; [|split].
      - intros (? & ? & ? & ? & ? & Hin). entry_cases Hin.
      - intros e Hin He. entry_cases Hin; subst; discriminate He.
      - intros e Hin He. entry_cases Hin; subst; discriminate He. }
  unfold bind at 1, call at 1.
  match goal with |- context [is_ok ?x] => destruct x as [info|e3] end; cbn [is_ok].
  2:{ rewrite <- !app_assoc. eexists _, [_; _; _]. split; [reflexivity|]. split; [|split].
      - intros (? & ? & ? & ? & ? & Hin). entry_cases Hin.
      - intros e Hin He. entry_cases Hin; subst; discriminate He.
      - intros e Hin He. entry_cases Hin; subst; try discriminate He.
        now eexists _, _. }
  unfold bind, when, log, ret.
  destruct (0 <? length (failedItems info))%nat; rewrite <- !app_assoc; cbn [app];
    eexists _, _; (split; [reflexivity|]); (split; [reflexivity|]); split.
  all: try (intros e Hin He; entry_cases Hin; subst; try discriminate He;
            try (now eexists _, _);
            eexists _, _, _, _, _; right; right; left).
Qed.

(** X12: once the artifact client has answered, [upload] returns
    normally, failed items or not; an error line is only logged after
    that; and the artifact client is only ever called with the rendered
    ['bdist-name'], the distribution directory, [continueOnError] and a
    retention of 90 days. *)
Theorem upload_after_publishing installDir options t0 :
  exists r new,
    upload H W installDir options t0 = (r, t0 ++ new) /\
    (published new -> is_ok r = true) /\
    (forall e, e ∈ new -> is_error_line e = true -> published new) /\
    (forall e, e ∈ new -> is_upload e = true ->
       exists files ok,
         e = Called (UploadArtifact (renderName H (bdist_name options) options) files
                       (path_join H [agdaDir H; "bdist";
                                     renderName H (bdist_name options) options])
                       true 90) ok).
Proof.
  rewrite upload_phases.
  destruct (bind_run (fun e => assembly_entry e = true) (assemble H W installDir options)
              (fun _ => bind (call (AgdaTest (testBin H options) (testData H options))
                                (util_agdaTest W (testBin H options) (testData H options)))
                             (fun _ => publish H W options)) t0
              (assemble_entries H W installDir options))
    as (r1 & new1 & Hasm & ->).
  assert (Hnp : forall e, e ∈ new1 -> is_upload e = false /\ is_error_line e = false).
  { intros e Hin. rewrite Forall_forall in Hasm. specialize (Hasm e Hin).
    destruct e as [[] ?|[]|[] ?]; try discriminate Hasm; auto. }
  assert (Hnpub : forall l, (forall e, e ∈ l -> is_upload e = false) -> ~ published l).
  { intros l Hl (? & ? & ? & ? & ? & Hin). now specialize (Hl _ Hin). }
  destruct r1 as [[]|e1].
  2:{ exists (Throw e1), new1. split; [reflexivity|]. split; [|split].
      - intros Hp. exfalso. revert Hp. apply Hnpub. intros e Hin. now apply Hnp.
      - intros e Hin He. destruct (Hnp e Hin). congruence.
      - intros e Hin He. destruct (Hnp e Hin). congruence. }
  unfold bind at 1, call at 1.
  destruct (util_agdaTest W (testBin H options) (testData H options) (t0 ++ new1))
    as [[]|err]; cbn [is_ok].
  2:{ eexists _, (new1 ++ [_]). rewrite app_assoc. split; [reflexivity|].
      assert (Hall : forall e, e ∈ new1 ++ [Called (AgdaTest (testBin H options) (testData H options)) false] ->
                is_upload e = false /\ is_error_line e = false).
      { intros e Hin. apply elem_of_app in Hin as [Hin|Hin]; [now apply Hnp|].
        apply list_elem_of_singleton in Hin. subst. auto. }
      split; [|split].
      - intros Hp. exfalso. revert Hp. apply Hnpub. intros e Hin. now apply Hall.
      - intros e Hin He. destruct (Hall e Hin). congruence.
      - intros e Hin He. destruct (Hall e Hin). congruence. }
  destruct (publish_run options
              ((t0 ++ new1) ++ [Called (AgdaTest (testBin H options) (testData H options)) true]))
    as (r2 & new2 & -> & Hok & Herr & Hup).
  exists r2, (new1 ++ Called (AgdaTest (testBin H options) (testData H options)) true :: new2).
  split; [now rewrite <- !app_assoc|].
  assert (Hpub : published (new1 ++ Called (AgdaTest (testBin H options) (testData H options)) true :: new2)
                 -> published new2).
  { intros (n & f & d & c & k & Hin).
    apply elem_of_app in Hin as [Hin|Hin]; [destruct (Hnp _ Hin); discriminate|].
    apply elem_of_cons in Hin as [Hin|Hin]; [discriminate Hin|].
    now exists n, f, d, c, k. }
  assert (Hsub : published new2 ->
                 published (new1 ++ Called (AgdaTest (testBin H options) (testData H options)) true :: new2)).
  { intros (n & f & d & c & k & Hin). exists n, f, d, c, k.
    apply elem_of_app. right. now right. }
  split; [|split].
  - intros Hp. apply Hok, Hpub, Hp.
  - intros e Hin He. apply Hsub.
    apply elem_of_app in Hin as [Hin|Hin]; [destruct (Hnp _ Hin); congruence|].
    apply elem_of_cons in Hin as [->|Hin]; [discriminate He|]. now apply (Herr e).
  - intros e Hin He.
    apply elem_of_app in Hin as [Hin|Hin]; [destruct (Hnp _ Hin); congruence|].
    apply elem_of_cons in Hin as [->|Hin]; [discriminate He|]. now apply Hup.
Qed.

End pipeline.

Lemma renderName_versions_only_witness :
  renderName Samples.host bdistNameDefaultTemplate
    (Samples.compressing (Samples.options "2.6.4" "latest"))
  = renderName Samples.host bdistNameDefaultTemplate (Samples.options "2.6.4" "latest").
Proof.
  apply (renderName_versions_only Samples.host Samples.world); reflexivity.
Defined.

End bdist_more.

(** ** Installing ICU *)

Module icu_install_facts.
Import opts icu icu_install.
Local Open Scope list_scope.

Section installICU.
Variable H : Host.
Variable W : World.

(** X13: on macOS only ICU 71.1 can be installed.  For any other version
    [installICU] throws its own error without calling anything; this is
    the case of the version resolved for Agda from 2.5.3 up to, not
    including, 2.6.2. *)
Theorem installICU_macos t :
  os H = macos ->
  (forall version, version <> "71.1" ->
     installICU H W version t
     = (Throw (MkError ("Could not install ICU-" +:+ version +:+ " for macos")), t)) /\
  (forall options,
     simver.gte (agda_version options) "2.6.2" = false ->
     simver.gte (agda_version options) "2.5.3" = true ->
     exists version,
       icu_version (resolveIcuVersion options) = Some version /\
       installICU H W version t
       = (Throw (MkError "Could not install ICU-67.1 for macos"), t)).
Proof.
  intros Hos. assert (Hv : forall version, version <> "71.1" ->
     installICU H W version t
     = (Throw (MkError ("Could not install ICU-" +:+ version +:+ " for macos")), t)).
  { intros version Hne. unfold installICU, couldNotInstall. rewrite Hos.
    destruct (String.eqb_spec version "71.1"); [contradiction | reflexivity]. }
  split; [exact Hv|].
  intros options H262 H253. exists "67.1". split.
  - unfold resolveIcuVersion. now rewrite H262, H253.
  - apply (Hv "67.1"). discriminate.
Qed.

(** X14: a version other than 67.1 and 71.1 is not refused on Linux and
    Windows: nothing is fetched, and the one call made is the extraction
    of the archive with the empty path (on Windows the directories
    returned then have an empty middle component). *)
Theorem installICU_unlisted_version version t :
  version <> "67.1" -> version <> "71.1" ->
  (os H = linux ->
     let flags := ["--extract"; "--gzip"; "--strip-components=4"] in
     let answer := tc_extractTar W "" (installDir H version) flags t in
     installICU H W version t
     = (match answer with
        | Ok dir => Ok {| extraLibDir := path_join H [dir; "lib"];
                          extraIncludeDir := path_join H [dir; "include"] |}
        | Throw e => Throw e
        end,
        t ++ [Proc.Called (ExtractTar "" (installDir H version) flags) (is_ok answer)])) /\
  (os H = windows ->
     let answer := tc_extractZip W "" (installDir H version) t in
     installICU H W version t
     = (match answer with
        | Ok dir => Ok {| extraLibDir := path_join H [dir; ""; "bin64"];
                          extraIncludeDir := path_join H [dir; ""; "include"] |}
        | Throw e => Throw e
        end,
        t ++ [Proc.Called (ExtractZip "" (installDir H version)) (is_ok answer)])).
Proof.
  intros H67 H71. split; intros Hos; cbv zeta; unfold installICU; rewrite Hos;
    destruct (String.eqb_spec version "67.1"); try contradiction;
    destruct (String.eqb_spec version "71.1"); try contradiction;
    unfold Proc.bind, Proc.ret, Proc.call; cbn [fst snd].
  - destruct (tc_extractTar W "" _ _ t); reflexivity.
  - destruct (tc_extractZip W "" _ t); reflexivity.
Qed.

Lemma downloads_app t1 t2 : downloads (t1 ++ t2) = downloads t1 ++ downloads t2.
Proof. apply omap_app. Qed.

(** Fetching one archive. *)
Lemma fetch_run url t :
  exists r,
    Proc.call (DownloadTool url) (tc_downloadTool W url) t
    = (r, t ++ [Proc.Called (DownloadTool url) (is_ok r)]).
Proof. now eexists. Qed.

(** X15: [installICU] fetches at most one archive, the one of the
    detected OS and the requested version, and none on macOS; and when it
    throws, either a collaborator's call has just failed, or it is macOS
    with a version other than 71.1 and nothing was called. *)
Theorem installICU_downloads version t :
  exists r new,
    installICU H W version t = (r, t ++ new) /\
    downloads new `sublist_of` option_list (icuUrl (os H) version) /\
    (forall err, r = Throw err ->
       new = [] /\ os H = macos /\ version <> "71.1" \/
       exists c, last new = Some (Proc.Called c false)).
Proof.
  unfold installICU, icuUrl. destruct (os H) eqn:Hos.
  - (* linux *)
    unfold Proc.bind at 1.
    set (fetch := if (version =? "67.1")%string then _ else _).
    set (url := if (version =? "67.1")%string then _ else _).
    assert (Hf : exists r new, fetch t = (r, t ++ new) /\
                   downloads new `sublist_of` option_list url /\
                   (forall err, r = Throw err -> exists c, last new = Some (Proc.Called c false))).
    { subst fetch url.
      destruct (version =? "67.1")%string; [|destruct (version =? "71.1")%string].
      - unfold Proc.call. eexists _, [_]. split; [reflexivity|]. split; [reflexivity|].
        intros err ->. now eexists.
      - unfold Proc.call. eexists _, [_]. split; [reflexivity|]. split; [reflexivity|].
        intros err ->. now eexists.
      - exists (Ok ""), []. unfold Proc.ret. rewrite app_nil_r.
        split; [reflexivity|]. split; [reflexivity | discriminate]. }
    destruct Hf as (r & new & -> & Hd & Hr). destruct r as [icuPath|e].
    + unfold Proc.bind, Proc.call, Proc.ret.
      match goal with |- context [is_ok ?x] => destruct x as [dir|e] eqn:Hx end;
        cbn [is_ok]; rewrite <- app_assoc; eexists _, _; (split; [reflexivity|]);
        rewrite downloads_app; cbn [downloads omap]; rewrite app_nil_r;
        (split; [exact Hd|]); intros err Herr; try discriminate Herr;
        right; eexists; apply last_snoc.
    + exists (Throw e), new. split; [reflexivity|]. split; [exact Hd|].
      intros err [= <-]. right. now apply (Hr e).
  - (* macos *)
    destruct (String.eqb_spec version "71.1") as [E71|N71].
    + unfold Proc.bind, Proc.call, Proc.ret.
      destruct (exec_execOutput W "brew" ["--prefix"] t) as [out|e]; cbn [is_ok].
      * match goal with |- context [is_ok ?x] => destruct x as [o2|e] end;
          cbn [is_ok]; rewrite <- app_assoc; eexists _, _; (split; [reflexivity|]);
          (split; [apply sublist_nil_l|]); intros err Herr; try discriminate Herr;
          right; now eexists.
      * eexists _, _. split; [reflexivity|]. split; [apply sublist_nil_l|].
        intros err _. right. now eexists.
    + exists (Throw (MkError (couldNotInstall H version))), [].
      unfold Proc.throw. rewrite app_nil_r. split; [reflexivity|].
      split; [apply sublist_nil_l|]. intros err _. left. auto.
  - (* windows *)
    unfold Proc.bind at 1.
    set (fetch := if (version =? "67.1")%string then _ else _).
    set (url := if (version =? "67.1")%string then _ else _).
    assert (Hf : exists r new, fetch t = (r, t ++ new) /\
                   downloads new `sublist_of` option_list url /\
                   (forall err, r = Throw err -> exists c, last new = Some (Proc.Called c false))).
    { subst fetch url.
      destruct (version =? "67.1")%string; [|destruct (version =? "71.1")%string].
      - unfold Proc.bind, Proc.call, Proc.ret.
        destruct (tc_downloadTool W icu67UrlWindows t); cbn [is_ok];
          eexists _, [_]; (split; [reflexivity|]); (split; [reflexivity|]);
          intros err Herr; try discriminate Herr; now eexists.
      - unfold Proc.bind, Proc.call, Proc.ret.
        destruct (tc_downloadTool W icu71UrlWindows t); cbn [is_ok];
          eexists _, [_]; (split; [reflexivity|]); (split; [reflexivity|]);
          intros err Herr; try discriminate Herr; now eexists.
      - exists (Ok ("", "")), []. unfold Proc.ret. rewrite app_nil_r.
        split; [reflexivity|]. split; [reflexivity | discriminate]. }
    destruct Hf as (r & new & -> & Hd & Hr). destruct r as [found|e].
    + unfold Proc.bind, Proc.call, Proc.ret.
      match goal with |- context [is_ok ?x] => destruct x as [dir|e] eqn:Hx end;
        cbn [is_ok]; rewrite <- app_assoc; eexists _, _; (split; [reflexivity|]);
        rewrite downloads_app; cbn [downloads omap]; rewrite app_nil_r;
        (split; [exact Hd|]); intros err Herr; try discriminate Herr;
        right; eexists; apply last_snoc.
    + exists (Throw e), new. split; [reflexivity|]. split; [exact Hd|].
      intros err [= <-]. right. now apply (Hr e).
Qed.

End installICU.

Lemma installICU_macos_witness :
  installICU (Samples.icu_host macos) Samples.icu_world "67.1" []
  = (Throw (MkError "Could not install ICU-67.1 for macos"), []).
Proof.
  apply (proj1 (installICU_macos (Samples.icu_host macos) Samples.icu_world []
                  eq_refl) "67.1").
  discriminate.
Defined.

Lemma installICU_unlisted_version_witness :
  fst (installICU (Samples.icu_host linux) Samples.icu_world "70.1" [])
  = Ok {| extraLibDir := "/home/runner/.agda/icu/70.1/lib";
          extraIncludeDir := "/home/runner/.agda/icu/70.1/include" |}.
Proof.
  rewrite (proj1 (installICU_unlisted_version (Samples.icu_host linux)
                    Samples.icu_world "70.1" []
                    ltac:(discriminate) ltac:(discriminate)) eq_refl).
  reflexivity.
Defined.

End icu_install_facts.

(** ** Building with Stack *)

Module stack_facts.
Import opts stack.
Local Open Scope list_scope.

Section stack.
Variable H : Host.
Variable W : World.

Lemma fold_push (prefix : string) ds flags :
  fold_left (fun flags d => push flags (prefix +:+ d)) ds flags
  = flags ++ ((fun d => prefix +:+ d) <$> ds).
Proof.
  revert flags. induction ds as [|d ds IH]; intros flags; cbn.
  - now rewrite app_nil_r.
  - rewrite IH. unfold push. now rewrite <- app_assoc.
Qed.

(** The flags, as one list. *)
Lemma buildFlags_shape options :
  buildFlags H options =
    ["--stack-yaml=stack-" +:+ ghc_version options +:+ ".yaml"]
    ++ (if stack_setup_ghc options then [] else ["--no-install-ghc"; "--system-ghc"])
    ++ ["--no-executable-profiling"; "--no-library-profiling"]
    ++ (if shouldEnableClusterCounting H options
        then ["--flag=Agda:enable-cluster-counting"] else [])
    ++ (if shouldEnableOptimiseHeavily H options
        then ["--flag=Agda:optimise-heavily"] else [])
    ++ ((fun d => "--extra-include-dirs=" +:+ d) <$> extra_include_dirs options)
    ++ ((fun d => "--extra-lib-dirs=" +:+ d) <$> extra_lib_dirs options).
Proof.
  unfold buildFlags. cbv zeta. rewrite !fold_push. unfold push.
  destruct (stack_setup_ghc options), (shouldEnableClusterCounting H options),
    (shouldEnableOptimiseHeavily H options); cbn [negb app];
    rewrite <- ?app_assoc; reflexivity.
Qed.

Ltac flag_cases Hin :=
  repeat first
    [ apply elem_of_app in Hin as [Hin|Hin]
    | apply elem_of_cons in Hin as [Hin|Hin]
    | apply elem_of_nil in Hin; contradiction
    | apply list_elem_of_fmap in Hin as (? & Hin & ?)
    | match type of Hin with
      | context [if ?b then _ else _] => destruct b
      end ];
  try (cbn in Hin; discriminate Hin).

(** X16: what [buildFlags] passes to Stack.  The first flag names the
    Stack file of the GHC version; profiling is always switched off; the
    two system-GHC flags are passed exactly when ['stack-setup-ghc'] is
    off, the cluster-counting and optimisation flags exactly when the
    options enable them, and an include or library directory exactly
    when the options list it. *)
Theorem buildFlags_contents options :
  let flags := buildFlags H options in
  flags !! 0 = Some ("--stack-yaml=stack-" +:+ ghc_version options +:+ ".yaml") /\
  "--no-executable-profiling" ∈ flags /\
  "--no-library-profiling" ∈ flags /\
  ("--no-install-ghc" ∈ flags <-> stack_setup_ghc options = false) /\
  ("--system-ghc" ∈ flags <-> stack_setup_ghc options = false) /\
  ("--flag=Agda:enable-cluster-counting" ∈ flags
     <-> shouldEnableClusterCounting H options = true) /\
  ("--flag=Agda:optimise-heavily" ∈ flags
     <-> shouldEnableOptimiseHeavily H options = true) /\
  (forall d, "--extra-include-dirs=" +:+ d ∈ flags <-> d ∈ extra_include_dirs options) /\
  (forall d, "--extra-lib-dirs=" +:+ d ∈ flags <-> d ∈ extra_lib_dirs options).
Proof.
  cbv zeta. rewrite buildFlags_shape.
  split; [reflexivity|].
  split; [rewrite !elem_of_app; right; right; left; left|].
  split; [rewrite !elem_of_app; right; right; left; right; left|].
  repeat split.
  - intros Hin. destruct (stack_setup_ghc options) eqn:E; [|reflexivity].
    exfalso. flag_cases Hin.
  - intros ->. rewrite !elem_of_app. right. left. left.
  - intros Hin. destruct (stack_setup_ghc options) eqn:E; [|reflexivity].
    exfalso. flag_cases Hin.
  - intros ->. rewrite !elem_of_app. right. left. right. left.
  - intros Hin. destruct (shouldEnableClusterCounting H options) eqn:E; [reflexivity|].
    exfalso. flag_cases Hin.
  - intros ->. rewrite !elem_of_app. do 3 right. left. left.
  - intros Hin. destruct (shouldEnableOptimiseHeavily H options) eqn:E; [reflexivity|].
    exfalso. flag_cases Hin.
  - intros ->. rewrite !elem_of_app. do 4 right. left. left.
  - intros Hin. flag_cases Hin. apply String.app_inj in Hin. now subst.
  - intros Hd. rewrite !elem_of_app. do 5 right. left.
    now apply (list_elem_of_fmap_2 (fun d => "--extra-include-dirs=" +:+ d)).
  - intros Hin. flag_cases Hin. apply String.app_inj in Hin. now subst.
  - intros Hd. rewrite !elem_of_app. do 6 right.
    now apply (list_elem_of_fmap_2 (fun d => "--extra-lib-dirs=" +:+ d)).
Qed.


Lemma copies_app t1 t2 : copies (t1 ++ t2) = copies t1 ++ copies t2.
Proof. apply omap_app. Qed.

(** The loop of [build]: copy, then clean up, for each executable. *)
Lemma build_loop localBinDir installBinDir bins t :
  exists r new,
    Proc.for_each bins (fun binName =>
      also Proc.call (Cp (path_join H [localBinDir; binName])
                         (path_join H [installBinDir; binName]))
                     (util_cp W (path_join H [localBinDir; binName])
                                (path_join H [installBinDir; binName]));
      Proc.try_catch
        (Proc.call (RmRF (path_join H [localBinDir; binName]))
                   (util_rmRF W (path_join H [localBinDir; binName])))
        (fun error =>
           Proc.log Eff.debug ("Could not clean up executable at "
                               +:+ path_join H [localBinDir; binName]))) t
    = (r, t ++ new) /\
    (is_ok r = true -> Forall (fun e => failed_step e = false) new) /\
    (forall err, r = Throw err ->
       exists c, last new = Some (Proc.Called c false) /\
                 failed_step (Proc.Called c false) = true) /\
    (exists done rest,
       bins = done ++ rest /\
       fst <$> copies new = (fun b => path_join H [installBinDir; b]) <$> done /\
       (is_ok r = true -> rest = [])) /\
    length (List.filter failed_cleanup new) = length (List.filter debug_line new).
Proof.
  set (body := fun binName : string => _).
  revert t. induction bins as [|b bins IH]; intros t.
  - exists (Ok tt), []. cbn. unfold Proc.ret. rewrite app_nil_r.
    split; [reflexivity|]. split; [constructor|]. split; [discriminate|].
    split; [|reflexivity]. now exists [], [].
  - cbn [Proc.for_each]. unfold Proc.bind at 1. unfold body at 1.
    unfold Proc.bind at 1, Proc.call at 1.
    destruct (util_cp W _ _ t) as [[]|e]; cbn [is_ok].
    2:{ eexists _, [_]. split; [reflexivity|]. split; [discriminate|].
        split; [intros err _; eexists; split; reflexivity|].
        split; [|reflexivity]. exists [b], bins. repeat split. discriminate. }
    unfold Proc.try_catch, Proc.call at 1, Proc.log.
    match goal with |- context [is_ok ?x] => destruct x as [[]|e] end; cbn [is_ok];
      rewrite <- ?app_assoc; cbn [app];
      match goal with
      | |- context [Proc.for_each bins body (t ++ ?pre)] =>
          destruct (IH (t ++ pre)) as (r & new & -> & Hok & Hlast & (done & rest & -> & Hc & Hall) & Hn);
          exists r, (pre ++ new)
      end;
      (split; [now rewrite <- app_assoc|]);
      (split; [intros Hr; apply Forall_app; split; [repeat constructor | auto]|]);
      (split; [intros err Herr; destruct (Hlast err Herr) as (c & Hl & Hc');
               exists c; split; [rewrite last_app, Hl; reflexivity | exact Hc']|]);
      (split; [exists (b :: done), rest; split; [reflexivity|]; split; [|exact Hall];
               rewrite copies_app, fmap_app, Hc; reflexivity
              |rewrite !List.filter_app, !length_app, Hn; reflexivity]).
Qed.

(** X17: in [build] a failed clean-up never matters and every other
    failed call is fatal.  [build] returns normally exactly when no call
    other than a clean-up failed; the executables are copied in order,
    all of them when it returns normally; and each failed clean-up leaves
    one debug line. *)
Theorem build_cleanup_not_fatal sourceDir installDir options t :
  exists r new,
    build H W sourceDir installDir options t = (r, t ++ new) /\
    (is_ok r = true <-> Forall (fun e => failed_step e = false) new) /\
    (exists done rest,
       agdaBinNames H = done ++ rest /\
       fst <$> copies new
       = (fun b => path_join H [path_join H [installDir; "bin"]; b]) <$> done /\
       (is_ok r = true -> rest = [])) /\
    length (List.filter failed_cleanup new) = length (List.filter debug_line new).
Proof.
  assert (Hiff : forall (r : Result unit) new,
    (is_ok r = true -> Forall (fun e => failed_step e = false) new) ->
    (forall err, r = Throw err ->
       exists c, last new = Some (Proc.Called c false) /\
                 failed_step (Proc.Called c false) = true) ->
    (is_ok r = true <-> Forall (fun e => failed_step e = false) new)).
  { intros r new Hok Hlast. split; [exact Hok|]. intros HF.
    destruct r as [|err]; [reflexivity|]. exfalso.
    destruct (Hlast err eq_refl) as (c & Hl & Hc).
    apply last_Some in Hl as [l' ->].
    rewrite Forall_app, Forall_singleton in HF. destruct HF as [_ HF]. congruence. }
  unfold build. unfold Proc.bind at 1, Proc.call at 1.
  destruct (util_mkdirP W _ t) as [[]|e]; cbn [is_ok].
  2:{ eexists _, [_]. split; [reflexivity|]. split.
      - apply Hiff; [discriminate | intros err _; eexists; split; reflexivity].
      - split; [|reflexivity]. exists [], (agdaBinNames H). repeat split. discriminate. }
  unfold Proc.bind at 1, Proc.call at 1.
  match goal with |- context [is_ok ?x] => destruct x as [out|e] end; cbn [is_ok].
  2:{ rewrite <- app_assoc. eexists _, [_; _]. split; [reflexivity|]. split.
      - apply Hiff; [discriminate | intros err _; eexists; split; reflexivity].
      - split; [|reflexivity]. exists [], (agdaBinNames H). repeat split. discriminate. }
  unfold Proc.bind at 1, Proc.call at 1.
  match goal with |- context [is_ok ?x] => destruct x as [localBinDir|e] end; cbn [is_ok].
  2:{ rewrite <- !app_assoc. eexists _, [_; _; _]. split; [reflexivity|]. split.
      - apply Hiff; [discriminate | intros err _; eexists; split; reflexivity].
      - split; [|reflexivity]. exists [], (agdaBinNames H). repeat split. discriminate. }
  cbv zeta. unfold Proc.bind at 1, Proc.call at 1.
  match goal with |- context [is_ok ?x] => destruct x as [[]|e] end; cbn [is_ok].
  2:{ rewrite <- !app_assoc. eexists _, [_; _; _; _]. split; [reflexivity|]. split.
      - apply Hiff; [discriminate | intros err _; eexists; split; reflexivity].
      - split; [|reflexivity]. exists [], (agdaBinNames H). repeat split. discriminate. }
  rewrite <- !app_assoc. cbn [app].
  match goal with
  | |- context [Proc.for_each _ _ (t ++ ?pre)] =>
      destruct (build_loop localBinDir (path_join H [installDir; "bin"])
                  (agdaBinNames H) (t ++ pre))
        as (r & new & -> & Hok & Hlast & (done & rest & Hb & Hc & Hall) & Hn);
      exists r, (pre ++ new)
  end.
  split; [now rewrite <- app_assoc|]. split.
  - apply Hiff.
    + intros Hr. apply Forall_app. split; [repeat constructor | auto].
    + intros err Herr. destruct (Hlast err Herr) as (c & Hl & Hc').
      exists c. split; [rewrite last_app, Hl; reflexivity | exact Hc'].
  - split.
    + exists done, rest. split; [exact Hb|]. split; [|exact Hall].
      rewrite copies_app. exact Hc.
    + rewrite !List.filter_app, !length_app, Hn. reflexivity.
Qed.


Lemma warnings_app t1 t2 : warnings (t1 ++ t2) = warnings t1 ++ warnings t2.
Proof. apply omap_app. Qed.

(** The loop of [supportedGhcVersions] keeps the valid versions, in
    order, and warns once for each of the others. *)
Lemma versions_loop (paths acc : list string) (t : list (Proc.Entry Call)) :
  Proc.for_fold (C:=Call) paths acc (fun versions stackYamlPath =>
    let version :=
      substring_from (String.length "stack-")
                     (path_basename H stackYamlPath ".yaml") in
    match semver_valid H version with
    | Some _ => Proc.ret (push versions version)
    | None =>
        also Proc.log Eff.warning
               ("Could not parse GHC version '" +:+ version +:+ "' from "
                +:+ stackYamlPath);
        Proc.ret versions
    end) t
  = (Ok (acc ++ List.filter (valid H) (versionOf H <$> paths)),
     t ++ ((fun p => Proc.Log Eff.warning
                       ("Could not parse GHC version '" +:+ versionOf H p
                        +:+ "' from " +:+ p))
           <$> List.filter (fun p => negb (valid H (versionOf H p))) paths)).
Proof.
  set (body := fun (versions : list string) (stackYamlPath : string) => _).
  revert acc t. induction paths as [|p paths IH]; intros acc t.
  - cbn. unfold Proc.ret. now rewrite !app_nil_r.
  - cbn [Proc.for_fold]. unfold Proc.bind at 1. unfold body at 1. cbv zeta.
    cbn [fmap list_fmap List.filter]. fold (versionOf H p).
    destruct (semver_valid H (versionOf H p)) eqn:E.
    + assert (Hv : valid H (versionOf H p) = true) by (unfold valid; now rewrite E).
      rewrite Hv. cbn [negb].
      unfold Proc.ret at 1. rewrite IH. unfold push.
      now rewrite <- app_assoc.
    + assert (Hv : valid H (versionOf H p) = false) by (unfold valid; now rewrite E).
      rewrite Hv. cbn [negb].
      unfold Proc.bind, Proc.log, Proc.ret at 1. rewrite IH.
      cbn [fmap list_fmap]. now rewrite <- app_assoc.
Qed.

(** X18: when the globbing succeeds, [supportedGhcVersions] returns the
    versions named by the [stack-*.yaml] files that [semver.valid]
    accepts, in the order of the files, warns once for each other file,
    and throws instead of returning an empty list. *)
Theorem supportedGhcVersions_valid sourceDir (t : list (Proc.Entry Call))
    (paths : list string) :
  let pattern := path_join H [sourceDir; "stack-*.yaml"] in
  glob_create W pattern t = Ok tt ->
  globber_glob W pattern (t ++ [Proc.Called (GlobCreate pattern) true]) = Ok paths ->
  let found := List.filter (valid H) (versionOf H <$> paths) in
  exists new,
    supportedGhcVersions H W sourceDir t
    = (match found with
       | [] => Throw (MkError (JS.join (os_EOL H)
                 [ "Could not determine supported GHC versions for building with Stack:";
                   "No files matching 'stack-*.yaml' in " +:+ sourceDir +:+ "." ]))
       | _ => Ok found
       end, t ++ new) /\
    warnings new
    = (fun p => "Could not parse GHC version '" +:+ versionOf H p
                +:+ "' from " +:+ p)
      <$> List.filter (fun p => negb (valid H (versionOf H p))) paths /\
    length found + length (warnings new) = length paths.
Proof.
  cbv zeta. intros Hc Hg. unfold supportedGhcVersions.
  unfold Proc.bind at 1, Proc.call at 1. rewrite Hc. cbn [is_ok].
  unfold Proc.bind at 1, Proc.call at 1. rewrite Hg. cbn [is_ok].
  unfold Proc.bind at 1. rewrite versions_loop. cbn [app].
  set (found := List.filter (valid H) (versionOf H <$> paths)).
  set (bad := List.filter (fun p => negb (valid H (versionOf H p))) paths).
  set (warn := fun p : string => Proc.Log (C:=Call) Eff.warning _).
  exists (Proc.Called (GlobCreate (path_join H [sourceDir; "stack-*.yaml"])) true
          :: Proc.Called (Glob (path_join H [sourceDir; "stack-*.yaml"])) true
          :: (warn <$> bad)).
  rewrite <- !app_assoc. cbn [app]. split.
  - destruct found; reflexivity.
  - assert (Hw : warnings (warn <$> bad)
                 = (fun p => "Could not parse GHC version '" +:+ versionOf H p
                             +:+ "' from " +:+ p) <$> bad).
    { clear. induction bad as [|x l IHl]; [reflexivity|].
      cbn. f_equal. exact IHl. }
    change (warnings (?a :: ?b :: ?l)) with (warnings l). rewrite Hw.
    split; [reflexivity|].
    rewrite length_fmap. subst found bad. clear.
    induction paths as [|p paths IH]; [reflexivity|].
    cbn [fmap list_fmap List.filter]. destruct (valid H (versionOf H p)); cbn [negb length];
      cbn [fmap list_fmap] in IH; lia.
Qed.

End stack.

Lemma supportedGhcVersions_valid_witness :
  fst (supportedGhcVersions Samples.stack_host Samples.stack_world "/src/agda" [])
  = Ok ["9.2.5"; "8.10.7"].
Proof.
  destruct (supportedGhcVersions_valid Samples.stack_host Samples.stack_world
              "/src/agda" []
              [ "/src/agda/stack-9.2.5.yaml"; "/src/agda/stack-nightly.yaml";
                "/src/agda/stack-8.10.7.yaml" ] eq_refl eq_refl)
    as (new & E & _).
  rewrite E. vm_compute. reflexivity.
Defined.

(** With every collaborator succeeding, both executables are copied. *)
Example build_sample :
  let outcome := build Samples.stack_host Samples.stack_world "/src/agda" "/opt/agda"
                   (Samples.options "2.6.4" "9.2.5") [] in
  fst outcome = Ok tt /\
  copies (snd outcome) = [("/opt/agda/bin/agda", true); ("/opt/agda/bin/agda-mode", true)].
Proof. split; vm_compute; reflexivity. Qed.

End stack_facts.
